(** * PPTX generator for PLA results ([app.py]): pagination and slide layout

    A shallow embedding of the data path of [app.py]:

    - [process_files]: per-condition clean-up of the results table, the
      numeric coercions, the sort by (image, cell), the construction of the
      eight-field entries of [all_info_for_slides], and the grouping loop
      that fills [all_slides_content];
    - [slide_maker]: the shapes added to one slide, at the coordinates of
      the two constant tables;
    - [generate_pptxs]: one presentation per quantification approach.

    The file system, the zip archive, the csv reader and the widgets are
    inputs of the model: a run starts from the list [exp_conditions_info]
    together with the table read for each condition, and from the picture
    files that [add_picture] finds.  Python exceptions are the [Raise]
    results of an error monad; no exception is caught anywhere in the
    program, so a raised exception ends the run. *)

From Stdlib Require Import List String Ascii ZArith Bool Lia Arith.
From Stdlib Require Import Sorted Permutation RelationClasses.
From Stdlib Require DecimalString DecimalZ DecimalPos OrdersEx.
Import ListNotations.

Local Open Scope string_scope.
Local Open Scope list_scope.

(** ** Python values and built-ins used by the program *)

Module Py.

(** The exceptions the modelled code can raise. *)
Inductive exn : Type :=
| IndexError
| KeyError
| ValueError
| AttributeError
| FileNotFoundError
| UnidentifiedImageError.

Inductive result (A : Type) : Type :=
| Ok (a : A)
| Raise (e : exn).
Arguments Ok {A} a.
Arguments Raise {A} e.

Definition bind {A B : Type} (m : result A) (k : A -> result B) : result B :=
  match m with
  | Ok a => k a
  | Raise e => Raise e
  end.

(** [for x in xs: acc = body(x, acc)], stopping at the first exception. *)
Fixpoint for_each {A S : Type} (body : A -> S -> result S) (xs : list A) (s : S)
  : result S :=
  match xs with
  | [] => Ok s
  | x :: xs' => bind (body x s) (for_each body xs')
  end.

(** [[f(x) for x in xs]] for an [f] that may raise. *)
Fixpoint map_result {A B : Type} (f : A -> result B) (xs : list A)
  : result (list B) :=
  match xs with
  | [] => Ok []
  | x :: xs' =>
      bind (f x) (fun y => bind (map_result f xs') (fun ys => Ok (y :: ys)))
  end.

(** [xs[i]] for a non-negative [i]. *)
Definition index {A : Type} (xs : list A) (i : nat) : result A :=
  match nth_error xs i with
  | Some x => Ok x
  | None => Raise IndexError
  end.

(** [s.startswith(p)] is [String.prefix p s]; [s.endswith(p)]: *)
Fixpoint endswith (s p : string) : bool :=
  if (String.length s =? String.length p)%nat then String.eqb s p
  else match s with
       | EmptyString => false
       | String _ s' => endswith s' p
       end.

(** [s.replace(old, new)]: every non-overlapping occurrence of [old],
    scanning from the left.  [skip] counts the characters of an occurrence
    that was just replaced and that are still to be passed over. *)
Fixpoint replace_from (old new : string) (skip : nat) (s : string) : string :=
  match s with
  | EmptyString => EmptyString
  | String c s' =>
      match skip with
      | S k => replace_from old new k s'
      | O =>
          if String.prefix old s
          then new ++ replace_from old new (String.length old - 1) s'
          else String c (replace_from old new 0 s')
      end
  end.

(** With an empty [old], Python puts [new] before every character and at
    the end. *)
Fixpoint interleave (new s : string) : string :=
  match s with
  | EmptyString => new
  | String c s' => new ++ String c (interleave new s')
  end.

Definition replace (s old new : string) : string :=
  match old with
  | EmptyString => interleave new s
  | _ => replace_from old new 0 s
  end.

(** [os.path.join] of [posixpath]: a component that starts with the
    separator discards what precedes it; no separator is added after an
    empty path or after one that already ends with it. *)
Definition sep : string := "/".

Definition join2 (path b : string) : string :=
  if String.prefix sep b then b
  else if String.eqb path "" || endswith path sep then path ++ b
       else path ++ sep ++ b.

Definition join (a : string) (p : list string) : string :=
  fold_left join2 p a.

(** [str(n)] for an [int]. *)
Definition str (z : Z) : string := DecimalString.NilZero.string_of_int (Z.to_int z).

(** The white space that [int] removes around the literal of an ASCII
    text: tab, line feed, vertical tab, form feed, carriage return and the
    space. *)
Definition isspace (c : ascii) : bool :=
  let n := nat_of_ascii c in
  ((9 <=? n) && (n <=? 13) || (n =? 32))%nat.

Fixpoint lstrip (s : string) : string :=
  match s with
  | EmptyString => EmptyString
  | String c s' => if isspace c then lstrip s' else s
  end.

Fixpoint rstrip (s : string) : string :=
  match s with
  | EmptyString => EmptyString
  | String c s' =>
      match rstrip s' with
      | EmptyString => if isspace c then EmptyString else String c EmptyString
      | r => String c r
      end
  end.

Definition strip (s : string) : string := rstrip (lstrip s).

Definition isdigit (c : ascii) : bool :=
  let n := nat_of_ascii c in ((48 <=? n) && (n <=? 57))%nat.

(** Digit groups of an integer literal: single underscores are allowed
    between digits only.  [prev] tells whether the previous character was
    a digit. *)
Fixpoint grouped (prev : bool) (s : string) : bool :=
  match s with
  | EmptyString => prev
  | String c s' =>
      if isdigit c then grouped true s'
      else if Ascii.eqb c "_" then prev && grouped false s'
           else false
  end.

Fixpoint ungroup (s : string) : string :=
  match s with
  | EmptyString => EmptyString
  | String c s' => if Ascii.eqb c "_" then ungroup s' else String c (ungroup s')
  end.

Definition digits (s : string) : option Z :=
  if grouped false s
  then option_map (fun d => Z.of_int (Decimal.Pos d)) (DecimalString.NilZero.uint_of_string (ungroup s))
  else None.

(** [int(s)] for a [str]: optional white space around an optional sign
    and decimal digits; anything else is a [ValueError].  Strings are byte
    strings here, so the non-ASCII digits and spaces that Python also
    accepts are not literals of the model; the bound that recent versions
    of Python put on the number of digits is not represented either. *)
Definition int (s : string) : result Z :=
  let t := strip s in
  let v :=
    match t with
    | String "-" r => option_map Z.opp (digits r)
    | String "+" r => digits r
    | _ => digits t
    end in
  match v with
  | Some z => Ok z
  | None => Raise ValueError
  end.

End Py.

Import Py.

Notation "x <- m ;; k" := (Py.bind m (fun x => k))
  (at level 61, m at next level, right associativity).


(** ** Input of a run *)

(** The radio button of [load_first_page] offers exactly three values for
    [T_and_FM]. *)
Inductive approach : Type :=
| Both
| Thresholding_only
| Find_Maxima_only.

(** [T_and_FM == "Both" or T_and_FM == "Thresholding only"] *)
Definition uses_T (T_and_FM : approach) : bool :=
  match T_and_FM with
  | Both | Thresholding_only => true
  | Find_Maxima_only => false
  end.

(** [T_and_FM == "Both" or T_and_FM == "Find Maxima only"] *)
Definition uses_FM (T_and_FM : approach) : bool :=
  match T_and_FM with
  | Both | Find_Maxima_only => true
  | Thresholding_only => false
  end.

(** A cell of a particle-count column as [pd.read_csv] delivers it: an
    integer, a text, or the missing-value marker.  (Fractional floats are
    not represented.) *)
Inductive cell : Type :=
| CInt (z : Z)
| CStr (s : string)
| CNaN.

(** One line of [Results.csv].  The two name fields are the text of the
    line in the name columns when these are text columns; a text column
    with a missing cell is not represented. *)
Record row : Type := {
  Image_used : string;
  Cell_quantified : string;
  Particle_count_threshold : cell;
  Particle_count_maxima : cell
}.

(** How [pd.read_csv] delivers one of the two name columns: not at all
    when the file has no such column, as numbers when every cell of it is
    one, as text otherwise. *)
Inductive name_column : Type :=
| Absent_column
| Numeric_column
| Text_column.

(** The table read for one condition.  The two count columns may be absent
    from the file; when a column is absent the corresponding field of the
    rows is not looked at, and likewise for a name column that is not a
    text column. *)
Record table : Type := {
  Image_used_column : name_column;
  Cell_quantified_column : name_column;
  has_Particle_count_threshold : bool;
  has_Particle_count_maxima : bool;
  rows : list row
}.

(** An element of [exp_conditions_info], [[csv_root_folder, csv_file]],
    with the table found at [csv_file]. *)
Record condition : Type := {
  csv_root_folder : string;
  csv_file : string;
  results_csv : table
}.

(** ** The entries of [all_info_for_slides] *)

(** [[ROI_title, ROI_subtitle, ROI_Fluorescence_image, ROI_name,
      ROI_Tcount_image, ROI_Tcount, ROI_FMcount_image, ROI_FMcount]];
    [None] is Python's [None]. *)
Record info : Type := {
  ROI_title : string;               (* [0] *)
  ROI_subtitle : string;            (* [1] *)
  ROI_Fluorescence_image : string;  (* [2] *)
  ROI_name : string;                (* [3] *)
  ROI_Tcount_image : option string; (* [4] *)
  ROI_Tcount : option cell;         (* [5] *)
  ROI_FMcount_image : option string;(* [6] *)
  ROI_FMcount : option cell         (* [7] *)
}.

(** ** [process_files], first half: the table of one condition *)

(** A row once ["Cell quantified"] has been turned into an integer. *)
Record frame_row : Type := {
  fr_Image_used : string;
  fr_Cell_quantified : Z;
  fr_Particle_count_threshold : cell;
  fr_Particle_count_maxima : cell
}.

(** [int(x)] on a cell. *)
Definition int_cell (c : cell) : result Z :=
  match c with
  | CInt z => Ok z
  | CStr s => Py.int s
  | CNaN => Raise ValueError
  end.

(** [str(x)] on a cell. *)
Definition str_cell (c : cell) : string :=
  match c with
  | CInt z => Py.str z
  | CStr s => s
  | CNaN => "nan"
  end.

(** [str(x)] on a cell or [None]. *)
Definition str_count (c : option cell) : string :=
  match c with
  | Some c => str_cell c
  | None => "None"
  end.

(** The two [.str.replace] on ["Image used"], then the [.str.replace] and
    [.apply(int)] on ["Cell quantified"].  The patterns are taken literally,
    which is the default of [Series.str.replace] since pandas 2.0. *)
Definition clean_row (r : row) : result frame_row :=
  let image := Py.replace (Py.replace (Image_used r) "MAX_" "") ".tif" "" in
  n <- Py.int (Py.replace (Cell_quantified r) "_1.roi" "") ;;
  Ok {| fr_Image_used := image;
        fr_Cell_quantified := n;
        fr_Particle_count_threshold := Particle_count_threshold r;
        fr_Particle_count_maxima := Particle_count_maxima r |}.

(** [results_table["Particle count threshold"].apply(int)] *)
Definition coerce_threshold (r : frame_row) : result frame_row :=
  z <- int_cell (fr_Particle_count_threshold r) ;;
  Ok {| fr_Image_used := fr_Image_used r;
        fr_Cell_quantified := fr_Cell_quantified r;
        fr_Particle_count_threshold := CInt z;
        fr_Particle_count_maxima := fr_Particle_count_maxima r |}.

(** [results_table["Particle count maxima"].apply(int)] *)
Definition coerce_maxima (r : frame_row) : result frame_row :=
  z <- int_cell (fr_Particle_count_maxima r) ;;
  Ok {| fr_Image_used := fr_Image_used r;
        fr_Cell_quantified := fr_Cell_quantified r;
        fr_Particle_count_threshold := fr_Particle_count_threshold r;
        fr_Particle_count_maxima := CInt z |}.

(** A column operation guarded by the approach: skipped when the approach
    does not use the column, a [KeyError] when the column is absent. *)
Definition coerce_column (used present : bool) (f : frame_row -> result frame_row)
    (rs : list frame_row) : result (list frame_row) :=
  if used then
    if present then Py.map_result f rs else Raise KeyError
  else Ok rs.

(** The order of [sort_values(by=["Image used", "Cell quantified"])]:
    texts by character code, then integers. *)
Definition key_leb (a b : frame_row) : bool :=
  match OrdersEx.String_as_OT.compare (fr_Image_used a) (fr_Image_used b) with
  | Lt => true
  | Eq => (fr_Cell_quantified a <=? fr_Cell_quantified b)%Z
  | Gt => false
  end.

(** [sort_values] is pandas' own; it is modelled by a stable insertion
    sort: ascending keys, rows with equal keys in their original order. *)
Fixpoint sort_insert (x : frame_row) (l : list frame_row) : list frame_row :=
  match l with
  | [] => [x]
  | y :: l' => if key_leb y x then y :: sort_insert x l' else x :: l
  end.

Definition sort_values (l : list frame_row) : list frame_row :=
  fold_left (fun acc x => sort_insert x acc) l [].

(** The body of [for _, row in results_table.iterrows()]. *)
Definition row_info (T_and_FM : approach) (condition_info : condition)
    (r : frame_row) : info :=
  let title := csv_root_folder condition_info in
  let subtitle := fr_Image_used r in
  let name := Py.str (fr_Cell_quantified r) in
  let Fluorescence_image :=
    Py.replace (csv_file condition_info)
      (Py.join "Quantification" ["Results.csv"])
      (Py.join "Cropped cells" ["Fluorescence"; subtitle; (name ++ "_2.jpg")%string]) in
  let Tcount_image :=
    Py.replace (Py.replace Fluorescence_image "Fluorescence" "T_Particles") "_2.jpg" "_1.jpg" in
  let FMcount_image :=
    Py.replace (Py.replace Fluorescence_image "Fluorescence" "FM_Particles") "_2.jpg" "_1.jpg" in
  match T_and_FM with
  | Thresholding_only =>
      {| ROI_title := title; ROI_subtitle := subtitle;
         ROI_Fluorescence_image := Fluorescence_image; ROI_name := name;
         ROI_Tcount_image := Some Tcount_image;
         ROI_Tcount := Some (fr_Particle_count_threshold r);
         ROI_FMcount_image := None;
         ROI_FMcount := None |}
  | Find_Maxima_only =>
      {| ROI_title := title; ROI_subtitle := subtitle;
         ROI_Fluorescence_image := Fluorescence_image; ROI_name := name;
         ROI_Tcount_image := None;
         ROI_Tcount := None;
         ROI_FMcount_image := Some FMcount_image;
         ROI_FMcount := Some (fr_Particle_count_maxima r) |}
  | Both =>
      {| ROI_title := title; ROI_subtitle := subtitle;
         ROI_Fluorescence_image := Fluorescence_image; ROI_name := name;
         ROI_Tcount_image := Some Tcount_image;
         ROI_Tcount := Some (fr_Particle_count_threshold r);
         ROI_FMcount_image := Some FMcount_image;
         ROI_FMcount := Some (fr_Particle_count_maxima r) |}
  end.

(** [results_table[name].str]: a [KeyError] without the column, an
    [AttributeError] on a column that does not hold text. *)
Definition str_accessor (column : name_column) : result unit :=
  match column with
  | Absent_column => Raise KeyError
  | Numeric_column => Raise AttributeError
  | Text_column => Ok tt
  end.

(** The sorted, coerced table of one condition. *)
Definition sorted_table (T_and_FM : approach) (results_table : table)
    : result (list frame_row) :=
  image_used <- str_accessor (Image_used_column results_table) ;;
  cell_quantified <- str_accessor (Cell_quantified_column results_table) ;;
  t1 <- Py.map_result clean_row (rows results_table) ;;
  t2 <- coerce_column (uses_T T_and_FM)
          (has_Particle_count_threshold results_table) coerce_threshold t1 ;;
  t3 <- coerce_column (uses_FM T_and_FM)
          (has_Particle_count_maxima results_table) coerce_maxima t2 ;;
  Ok (sort_values t3).

(** One turn of [for condition_info in exp_conditions_info]: the entries
    of the condition are appended to [all_info_for_slides]. *)
Definition condition_records (T_and_FM : approach) (condition_info : condition)
    (all_info_for_slides : list info) : result (list info) :=
  t <- sorted_table T_and_FM (results_csv condition_info) ;;
  Ok (all_info_for_slides ++ map (row_info T_and_FM condition_info) t).

(** [all_info_for_slides] when the loop over the conditions ends. *)
Definition extract_records (T_and_FM : approach) (exp_conditions_info : list condition)
    : result (list info) :=
  Py.for_each (condition_records T_and_FM) exp_conditions_info [].

(** ** [process_files], second half: grouping into slides *)

(** The variables of the grouping loop. *)
Record grouping : Type := {
  all_slides_content : list (list info);
  temp_slide : list info;
  current_title : string;
  current_subtitle : string
}.

(** The body of [for info in all_info_for_slides]. *)
Definition group_step (g : grouping) (i : info) : grouping :=
  let new_title := ROI_title i in
  let new_subtitle := ROI_subtitle i in
  if (List.length (temp_slide g) =? 20)%nat
     || negb (String.eqb new_title (current_title g))
     || negb (String.eqb new_subtitle (current_subtitle g))
  then {| all_slides_content := all_slides_content g ++ [temp_slide g];
          temp_slide := [i];
          current_title := new_title;
          current_subtitle := new_subtitle |}
  else {| all_slides_content := all_slides_content g;
          temp_slide := temp_slide g ++ [i];
          current_title := current_title g;
          current_subtitle := current_subtitle g |}.

(** The state of the loop after all of [all_info_for_slides] has been
    visited, starting from the title and subtitle of its first entry;
    [all_info_for_slides[0]] raises on the empty list. *)
Definition group_loop (all_info_for_slides : list info) : result grouping :=
  first <- Py.index all_info_for_slides 0 ;;
  Ok (fold_left group_step all_info_for_slides
        {| all_slides_content := [];
           temp_slide := [];
           current_title := ROI_title first;
           current_subtitle := ROI_subtitle first |}).

(** Lines 150 to 176: the function returns [all_slides_content] as it
    stands when the loop ends. *)
Definition group_slides (all_info_for_slides : list info) : result (list (list info)) :=
  g <- group_loop all_info_for_slides ;;
  Ok (all_slides_content g).

Definition process_files (T_and_FM : approach) (exp_conditions_info : list condition)
    : result (list (list info)) :=
  all_info_for_slides <- extract_records T_and_FM exp_conditions_info ;;
  group_slides all_info_for_slides.

(** ** [slide_maker] *)

(** The calls [Cm(x)] and [Pt(x)] of the source, recorded by their
    argument.  The source writes the arguments as decimal literals with at
    most two decimals for centimetres and one for points; [Cm] holds the
    literal in hundredths of a centimetre and [Pt] in tenths of a point.
    The length that python-pptx computes from the argument (an integer
    number of EMU, obtained with floating-point arithmetic) is not
    represented: two measures are only ever compared for equality of their
    arguments. *)
Inductive measure : Type :=
| Cm (hundredths : Z)
| Pt (tenths : Z).

(** What [slide.shapes.add_textbox] and [slide.shapes.add_picture] are asked
    to add, with the attributes the code sets afterwards.  Every text is
    centred.  [bold] is [true] only where [font.bold = True] is executed;
    [line] is the width of the outline given to the particle pictures.
    The layouts of the template are not represented: [slide_layouts[6]] is
    taken to exist. *)
Inductive shape : Type :=
| Textbox (left top width height : measure) (text : string)
          (bold : bool) (size : measure) (font_name : string)
| Picture (image_file : option string) (left top width height : measure)
          (line : option measure).

Definition slide : Type := list shape.
Definition presentation : Type := list slide.

Definition coordinates : Type := (Z * Z * Z * Z)%type.

Definition item0 (c : coordinates) : Z := let '(a, _, _, _) := c in a.
Definition item1 (c : coordinates) : Z := let '(_, b, _, _) := c in b.
Definition item2 (c : coordinates) : Z := let '(_, _, c2, _) := c in c2.
Definition item3 (c : coordinates) : Z := let '(_, _, _, d) := c in d.

Definition title_width : Z := 1700.
Definition title_height : Z := 150.
Definition title_left_coordinate : Z := 0.
Definition title_top_coordinate : Z := 0.

Definition subtitle_width : Z := 1700.
Definition subtitle_height : Z := 150.
Definition subtitle_left_coordinate : Z := 1700.
Definition subtitle_top_coordinate : Z := 0.

Definition image_width : Z := 325.
Definition image_height : Z := 300.

Definition image_coordinates : list coordinates :=
  [ (25, 210, 350, 210);  (700, 210, 1025, 210);  (1375, 210, 1700, 210);  (2050, 210, 2375, 210);  (2725, 210, 3050, 210);
    (25, 640, 350, 640);  (700, 640, 1025, 640);  (1375, 640, 1700, 640);  (2050, 640, 2375, 640);  (2725, 640, 3050, 640);
    (25, 1070, 350, 1070); (700, 1070, 1025, 1070); (1375, 1070, 1700, 1070); (2050, 1070, 2375, 1070); (2725, 1070, 3050, 1070);
    (25, 1500, 350, 1500); (700, 1500, 1025, 1500); (1375, 1500, 1700, 1500); (2050, 1500, 2375, 1500); (2725, 1500, 3050, 1500)
  ]%Z.

Definition image_labels_width : Z := 325.
Definition image_labels_height : Z := 100.

Definition image_labels_coordinates : list coordinates :=
  [ (25, 510, 350, 510);  (700, 510, 1025, 510);  (1375, 510, 1700, 510);  (2050, 510, 2375, 510);  (2725, 510, 3050, 510);
    (25, 940, 350, 940);  (700, 940, 1025, 940);  (1375, 940, 1700, 940);  (2050, 940, 2375, 940);  (2725, 940, 3050, 940);
    (25, 1370, 350, 1370); (700, 1370, 1025, 1370); (1375, 1370, 1700, 1370); (2050, 1370, 2375, 1370); (2725, 1370, 3050, 1370);
    (25, 1800, 350, 1800); (700, 1800, 1025, 1800); (1375, 1800, 1700, 1800); (2050, 1800, 2375, 1800); (2725, 1800, 3050, 1800)
  ]%Z.

Definition font : string := "Times New Roman".

(** What [add_picture] finds at a path. *)
Inductive file_state : Type :=
| A_picture
| Missing
| Not_a_picture.

(** The picture files of a run. *)
Definition disk : Type := string -> file_state.

(** [slide.shapes.add_picture(image_file, left, top, width, height)], with
    the outline [line] that the code gives to the particle pictures.
    python-pptx calls [image_file.seek] on what is not a path, which is an
    [AttributeError] for [None]; it opens a path, which is a
    [FileNotFoundError] for a missing file, and hands the content to the
    imaging library, which rejects what is not a picture.  Other failures
    of opening a file are not represented. *)
Definition add_picture (files : disk) (image_file : option string)
    (left top width height : measure) (line : option measure) (sl : slide)
    : result slide :=
  match image_file with
  | None => Raise AttributeError
  | Some path =>
      match files path with
      | A_picture => Ok (sl ++ [Picture image_file left top width height line])
      | Missing => Raise FileNotFoundError
      | Not_a_picture => Raise UnidentifiedImageError
      end
  end.

(** The body of [for i in range(image_count_for_slide)]: four shapes are
    added to the slide, in this order. *)
Definition slot_shapes (files : disk) (F_images_for_slide : list string)
    (P_images_for_slide : list (option string))
    (F_images_labels : list string) (P_images_labels : list (option cell))
    (i : nat) (sl : slide) : result slide :=
  fluorescence_image <- Py.index F_images_for_slide i ;;
  particle_image <- Py.index P_images_for_slide i ;;
  ic <- Py.index image_coordinates i ;;
  sl <- add_picture files (Some fluorescence_image)
          (Cm (item0 ic)) (Cm (item1 ic)) (Cm image_width) (Cm image_height)
          None sl ;;
  lc <- Py.index image_labels_coordinates i ;;
  F_label <- Py.index F_images_labels i ;;
  let sl := sl ++ [Textbox (Cm (item0 lc)) (Cm (item1 lc))
                     (Cm image_labels_width) (Cm image_labels_height)
                     F_label false (Pt 200) font] in
  sl <- add_picture files particle_image
          (Cm (item2 ic)) (Cm (item3 ic)) (Cm image_width) (Cm image_height)
          (Some (Pt 5)) sl ;;
  P_label <- Py.index P_images_labels i ;;
  let sl := sl ++ [Textbox (Cm (item2 lc)) (Cm (item3 lc))
                     (Cm image_labels_width) (Cm image_labels_height)
                     ("P=" ++ str_count P_label) false (Pt 200) font] in
  Ok sl.

(** A slide is appended to the presentation: title, subtitle, then the
    shapes of slots [0] to [image_count_for_slide - 1]. *)
Definition slide_maker (files : disk) (presentation_input : presentation)
    (current_slide_title current_slide_subtitle : string)
    (image_count_for_slide : nat)
    (F_images_for_slide : list string) (P_images_for_slide : list (option string))
    (F_images_labels : list string) (P_images_labels : list (option cell))
    : result presentation :=
  let sl : slide :=
    [ Textbox (Cm title_left_coordinate) (Cm title_top_coordinate)
        (Cm title_width) (Cm title_height)
        current_slide_title true (Pt 320) font;
      Textbox (Cm subtitle_left_coordinate) (Cm subtitle_top_coordinate)
        (Cm subtitle_width) (Cm subtitle_height)
        current_slide_subtitle false (Pt 320) font ] in
  sl <- Py.for_each
          (slot_shapes files F_images_for_slide P_images_for_slide
             F_images_labels P_images_labels)
          (seq 0 image_count_for_slide) sl ;;
  Ok (presentation_input ++ [sl]).

(** Position and size of a shape. *)
Definition geometry (s : shape) : measure * measure * measure * measure :=
  match s with
  | Textbox l t w h _ _ _ _ => (l, t, w, h)
  | Picture _ l t w h _ => (l, t, w, h)
  end.

(** ** [generate_pptxs] *)

(** The body of [for i, slide_content in enumerate(all_slides_content)],
    for the approach whose picture and count are read with [image_of] and
    [count_of] (fields [4] and [5] for Thresholding, [6] and [7] for Find
    Maxima). *)
Definition add_slide_for (files : disk) (image_of : info -> option string)
    (count_of : info -> option cell)
    (slide_content : list info) (pres : presentation) : result presentation :=
  first <- Py.index slide_content 0 ;;
  let current_slide_title := ROI_title first in
  let current_slide_subtitle := ROI_subtitle first in
  let image_count_for_slide := List.length slide_content in
  let F_images_for_slide := map ROI_Fluorescence_image slide_content in
  let F_images_labels := map ROI_name slide_content in
  let P_images_for_slide := map image_of slide_content in
  let P_images_labels := map count_of slide_content in
  slide_maker files pres current_slide_title current_slide_subtitle
    image_count_for_slide
    F_images_for_slide P_images_for_slide F_images_labels P_images_labels.

(** The files written by a run; [None] when the file is not written. *)
Record output : Type := {
  Summary_results_T : option presentation;
  Summary_results_FM : option presentation
}.

(** [template] is the content of [Template.pptx], opened afresh for each
    presentation. *)
Definition generate_pptxs (files : disk) (template : presentation)
    (all_slides_content : list (list info)) (T_and_FM : approach) : result output :=
  presentation_T <-
    (if uses_T T_and_FM then
       p <- Py.for_each (add_slide_for files ROI_Tcount_image ROI_Tcount)
              all_slides_content template ;;
       Ok (Some p)
     else Ok None) ;;
  presentation_FM <-
    (if uses_FM T_and_FM then
       p <- Py.for_each (add_slide_for files ROI_FMcount_image ROI_FMcount)
              all_slides_content template ;;
       Ok (Some p)
     else Ok None) ;;
  Ok {| Summary_results_T := presentation_T;
        Summary_results_FM := presentation_FM |}.

(** [load_first_page] once the button is pressed:
    [process_files] and then [generate_pptxs]. *)
Definition run (files : disk) (template : presentation) (T_and_FM : approach)
    (exp_conditions_info : list condition) : result output :=
  all_slides <- process_files T_and_FM exp_conditions_info ;;
  generate_pptxs files template all_slides T_and_FM.
(** ** Decimal texts *)

(** The text of a decimal numeral: digits only, so that [int] finds in it
    nothing to strip, no sign and no digit separator. *)
Definition decimal_text (d : Decimal.uint) : string :=
  DecimalString.NilEmpty.string_of_uint d.

(** ** Sample inputs *)

Definition sample_info (t s : string) (n : Z) : info :=
  {| ROI_title := t; ROI_subtitle := s;
     ROI_Fluorescence_image := Py.join "Fluorescence" [s; (Py.str n ++ "_2.jpg")%string];
     ROI_name := Py.str n;
     ROI_Tcount_image := Some (Py.join "T_Particles" [s; (Py.str n ++ "_1.jpg")%string]);
     ROI_Tcount := Some (CInt n);
     ROI_FMcount_image := None; ROI_FMcount := None |}.

(** [k] entries of the same condition and image, numbered from 1. *)
Definition same_group (t s : string) (k : nat) : list info :=
  map (fun n => sample_info t s (Z.of_nat n)) (seq 1 k).

(** The three entries of two images used as a small run: two cells of
    image [x], one of image [y]. *)
Definition three_entries : list info :=
  [ sample_info "A" "x" 1; sample_info "A" "x" 2; sample_info "A" "y" 1 ].

(** ** The grouping loop *)

(** An entry belongs to the group named by [t] and [s]. *)
Definition in_group (t s : string) (i : info) : Prop :=
  ROI_title i = t /\ ROI_subtitle i = s.

(** All entries of a slide carry the same title and the same subtitle. *)
Definition homogeneous (p : list info) : Prop :=
  forall a b, In a p -> In b p ->
    ROI_title a = ROI_title b /\ ROI_subtitle a = ROI_subtitle b.

(** What holds of the loop variables once the entries [done] have been
    visited, [done] being non-empty. *)
Record group_inv (done : list info) (g : grouping) : Prop := {
  inv_cover : List.concat (all_slides_content g) ++ temp_slide g = done;
  inv_sizes : Forall (fun p => 1 <= List.length p <= 20) (all_slides_content g);
  inv_temp : 1 <= List.length (temp_slide g) <= 20;
  inv_group : Forall (in_group (current_title g) (current_subtitle g)) (temp_slide g);
  inv_homog : Forall homogeneous (all_slides_content g)
}.

(** ** Order of the table and of the entries *)

(** Text order, by character code. *)
Definition text_lt (a b : string) : Prop := OrdersEx.String_as_OT.lt a b.

(** (image, cell) keys in ascending order, the cell number as an integer. *)
Definition key_le (a b : frame_row) : Prop :=
  text_lt (fr_Image_used a) (fr_Image_used b)
  \/ (fr_Image_used a = fr_Image_used b
      /\ (fr_Cell_quantified a <= fr_Cell_quantified b)%Z).

(** The same order read off the entries: the subtitle as a text, then the
    number that the ROI name denotes. *)
Definition info_le (a b : info) : Prop :=
  text_lt (ROI_subtitle a) (ROI_subtitle b)
  \/ (ROI_subtitle a = ROI_subtitle b
      /\ exists m n, Py.int (ROI_name a) = Ok m /\ Py.int (ROI_name b) = Ok n
                     /\ (m <= n)%Z).

(** A table with the cells ["9_1.roi"] and ["10_1.roi"] of one image, the
    larger number first, and a cell of an image that sorts before. *)
Definition sample_condition : condition :=
  {| csv_root_folder := "CondA";
     csv_file := "/app/Data/CondA/Quantification/Results.csv";
     results_csv :=
       {| Image_used_column := Text_column;
          Cell_quantified_column := Text_column;
          has_Particle_count_threshold := true;
          has_Particle_count_maxima := true;
          rows :=
            [ {| Image_used := "MAX_Row_01.tif"; Cell_quantified := "10_1.roi";
                 Particle_count_threshold := CInt 4; Particle_count_maxima := CInt 7 |};
              {| Image_used := "MAX_Row_01.tif"; Cell_quantified := "9_1.roi";
                 Particle_count_threshold := CInt 3; Particle_count_maxima := CStr "12" |};
              {| Image_used := "MAX_Row_00.tif"; Cell_quantified := "2_1.roi";
                 Particle_count_threshold := CInt 1; Particle_count_maxima := CInt 0 |} ] |} |}.

(** A condition whose table has no line. *)
Definition empty_condition : condition :=
  {| csv_root_folder := "CondB";
     csv_file := "/app/Data/CondB/Quantification/Results.csv";
     results_csv :=
       {| Image_used_column := Text_column;
          Cell_quantified_column := Text_column;
          has_Particle_count_threshold := true;
          has_Particle_count_maxima := true;
          rows := [] |} |}.

(** ** Shape of the entries *)

(** The picture and the count stored for one approach: when the approach
    is used, the picture path is the fluorescence path with every
    occurrence of ["Fluorescence"] replaced by [folder] and then every
    occurrence of ["_2.jpg"] by ["_1.jpg"], and the count is an integer;
    when it is not used, both fields are [None]. *)
Definition approach_fields (used : bool) (folder : string) (i : info)
    (image : option string) (count : option cell) : Prop :=
  if used then
    image = Some (Py.replace (Py.replace (ROI_Fluorescence_image i) "Fluorescence" folder)
                    "_2.jpg" "_1.jpg")
    /\ exists z, count = Some (CInt z)
  else image = None /\ count = None.

Definition well_shaped (T_and_FM : approach) (i : info) : Prop :=
  approach_fields (uses_T T_and_FM) "T_Particles" i (ROI_Tcount_image i) (ROI_Tcount i)
  /\ approach_fields (uses_FM T_and_FM) "FM_Particles" i (ROI_FMcount_image i) (ROI_FMcount i)
  /\ (ROI_Tcount_image i = None <-> ROI_Tcount i = None)
  /\ (ROI_FMcount_image i = None <-> ROI_FMcount i = None).

(** The count columns of a table row once the columns used by the approach
    have gone through [.apply(int)]. *)
Definition coerced (T_and_FM : approach) (r : frame_row) : Prop :=
  (uses_T T_and_FM = true -> exists z, fr_Particle_count_threshold r = CInt z)
  /\ (uses_FM T_and_FM = true -> exists z, fr_Particle_count_maxima r = CInt z).

(** ** Observations on slides *)

(** The particle-count label of slot [i] is the shape number [5 + 4 * i] of
    a slide: two text boxes come first, then four shapes per slot of which
    the label is the last. *)
Definition count_label (i : nat) (text : string) (sl : slide) : Prop :=
  exists lc, nth_error image_labels_coordinates i = Some lc
    /\ nth_error sl (5 + 4 * i) =
         Some (Textbox (Cm (item2 lc)) (Cm (item3 lc))
                 (Cm image_labels_width) (Cm image_labels_height)
                 text false (Pt 200) font).

(** A slide made for [slide_content]: as many shapes as its entries need,
    and under each particle picture ["P="] followed by the decimal text of
    the integer count of the entry. *)
Definition count_labels (count_of : info -> option cell)
    (slide_content : list info) (sl : slide) : Prop :=
  List.length sl = 2 + 4 * List.length slide_content
  /\ forall i r, nth_error slide_content i = Some r ->
       exists z, count_of r = Some (CInt z)
                 /\ count_label i ("P=" ++ Py.str z) sl.

(** The presentation of one approach: not written when the approach is not
    used; otherwise the template followed by one slide per element of
    [all_slides_content], each with its count labels. *)
Definition deck_labels (used : bool) (count_of : info -> option cell)
    (template : presentation) (slides_content : list (list info))
    (deck : option presentation) : Prop :=
  if used then
    exists slides, deck = Some (template ++ slides)
                   /\ Forall2 (count_labels count_of) slides_content slides
  else deck = None.

(** ** Where a slide ends *)

(** The slide [p] had to be closed before the entry [next]: it was full,
    or [next] belongs to another title or subtitle than its entries. *)
Definition closed_by (p : list info) (next : info) : Prop :=
  List.length p = 20
  \/ forall a, In a p ->
       ~ (ROI_title a = ROI_title next /\ ROI_subtitle a = ROI_subtitle next).

(** Every slide of [slides] is closed by the entry that follows it, the
    entries after the last slide being [rest]. *)
Fixpoint each_closed (slides : list (list info)) (rest : list info) : Prop :=
  match slides with
  | [] => True
  | p :: slides' =>
      (exists next, hd_error (List.concat slides' ++ rest) = Some next
                    /\ closed_by p next)
      /\ each_closed slides' rest
  end.

(** ** The grid of a slide *)

(** Position and size of the four shapes of slot [i], by column [i mod 5]
    and row [i / 5]: columns are 6.75 cm apart from 0.25 cm, rows 4.3 cm
    apart from 2.1 cm; the particle picture is 3.25 cm to the right of the
    fluorescence picture, and each label is 3 cm below its picture. *)
Definition slot_geometry (i : nat) : list (measure * measure * measure * measure) :=
  let x := (25 + 675 * Z.of_nat (i mod 5))%Z in
  let y := (210 + 430 * Z.of_nat (i / 5))%Z in
  [ (Cm x, Cm y, Cm 325, Cm 300);
    (Cm x, Cm (y + 300), Cm 325, Cm 100);
    (Cm (x + 325), Cm y, Cm 325, Cm 300);
    (Cm (x + 325), Cm (y + 300), Cm 325, Cm 100) ].

(** Title box, subtitle box, then the slots [0] to [n - 1]. *)
Definition grid_geometry (n : nat) : list (measure * measure * measure * measure) :=
  [ (Cm 0, Cm 0, Cm 1700, Cm 150); (Cm 1700, Cm 0, Cm 1700, Cm 150) ]
  ++ flat_map slot_geometry (seq 0 n).

(** ** What a shape shows *)

(** A shape without its position and size. *)
Inductive look : Type :=
| Text (text : string) (bold : bool) (size : measure) (font_name : string)
| Image (image_file : option string) (line : option measure).

Definition shape_look (s : shape) : look :=
  match s with
  | Textbox _ _ _ _ text bold size font_name => Text text bold size font_name
  | Picture image_file _ _ _ _ line => Image image_file line
  end.

(** What the four shapes of an entry show, for the approach whose picture
    and count are read with [image_of] and [count_of]. *)
Definition entry_looks (image_of : info -> option string)
    (count_of : info -> option cell) (r : info) : list look :=
  [ Image (Some (ROI_Fluorescence_image r)) None;
    Text (ROI_name r) false (Pt 200) font;
    Image (image_of r) (Some (Pt 5));
    Text ("P=" ++ str_count (count_of r)) false (Pt 200) font ].

(** ** The presentations of a run *)

(** The file of an approach: written only when the approach is used, and
    then made of the template's slides followed by one slide per element of
    [all_slides_content]. *)
Definition written (used : bool) (template : presentation)
    (slides_content : list (list info)) (deck : option presentation) : Prop :=
  if used then
    exists slides, deck = Some (template ++ slides)
                   /\ List.length slides = List.length slides_content
  else deck = None.

(** ** Tables that can be read *)

(** What the clean-up of a table needs under an approach: the two name
    columns are text columns, [int] accepts every cell name once
    ["_1.roi"] is removed and, for each count column that the approach
    uses, the column is there and [int] accepts every cell of it. *)
Definition readable (T_and_FM : approach) (t : table) : Prop :=
  Image_used_column t = Text_column
  /\ Cell_quantified_column t = Text_column
  /\ Forall (fun r => exists n, Py.int (Py.replace (Cell_quantified r) "_1.roi" "") = Ok n)
       (rows t)
  /\ (uses_T T_and_FM = true ->
      has_Particle_count_threshold t = true
      /\ Forall (fun r => exists z, int_cell (Particle_count_threshold r) = Ok z) (rows t))
  /\ (uses_FM T_and_FM = true ->
      has_Particle_count_maxima t = true
      /\ Forall (fun r => exists z, int_cell (Particle_count_maxima r) = Ok z) (rows t)).

(** ** Fields shared by the approaches *)

(** The fields of an entry that do not belong to an approach. *)
Definition shared_fields (i : info) : string * string * string * string :=
  (ROI_title i, ROI_subtitle i, ROI_Fluorescence_image i, ROI_name i).

(** A condition whose file has no ["Particle count maxima"] column. *)
Definition without_maxima (c : condition) : condition :=
  {| csv_root_folder := csv_root_folder c;
     csv_file := csv_file c;
     results_csv :=
       {| Image_used_column := Image_used_column (results_csv c);
          Cell_quantified_column := Cell_quantified_column (results_csv c);
          has_Particle_count_threshold := has_Particle_count_threshold (results_csv c);
          has_Particle_count_maxima := false;
          rows := map (fun r => {| Image_used := Image_used r;
                                   Cell_quantified := Cell_quantified r;
                                   Particle_count_threshold := Particle_count_threshold r;
                                   Particle_count_maxima := CNaN |})
                      (rows (results_csv c)) |} |}.

(** A condition whose file has no ["Particle count threshold"] column. *)
Definition without_threshold (c : condition) : condition :=
  {| csv_root_folder := csv_root_folder c;
     csv_file := csv_file c;
     results_csv :=
       {| Image_used_column := Image_used_column (results_csv c);
          Cell_quantified_column := Cell_quantified_column (results_csv c);
          has_Particle_count_threshold := false;
          has_Particle_count_maxima := has_Particle_count_maxima (results_csv c);
          rows := map (fun r => {| Image_used := Image_used r;
                                   Cell_quantified := Cell_quantified r;
                                   Particle_count_threshold := CNaN;
                                   Particle_count_maxima := Particle_count_maxima r |})
                      (rows (results_csv c)) |} |}.

(** The sort key of a table row. *)
Definition row_key (r : frame_row) : string * Z :=
  (fr_Image_used r, fr_Cell_quantified r).

(** A table row with its maxima cell, respectively its threshold cell,
    blanked. *)
Definition drop_maxima (r : frame_row) : frame_row :=
  {| fr_Image_used := fr_Image_used r;
     fr_Cell_quantified := fr_Cell_quantified r;
     fr_Particle_count_threshold := fr_Particle_count_threshold r;
     fr_Particle_count_maxima := CNaN |}.

Definition drop_threshold (r : frame_row) : frame_row :=
  {| fr_Image_used := fr_Image_used r;
     fr_Cell_quantified := fr_Cell_quantified r;
     fr_Particle_count_threshold := CNaN;
     fr_Particle_count_maxima := fr_Particle_count_maxima r |}.

(** Two states of the grouping loop that differ only in the fields of the
    entries that belong to an approach. *)
Definition same_grouping (g g' : grouping) : Prop :=
  map (map shared_fields) (all_slides_content g)
  = map (map shared_fields) (all_slides_content g')
  /\ map shared_fields (temp_slide g) = map shared_fields (temp_slide g')
  /\ current_title g = current_title g'
  /\ current_subtitle g = current_subtitle g'.

(** ** Texts *)

(** [c in s] for a character [c]. *)
Fixpoint occurs_in (c : ascii) (s : string) : bool :=
  match s with
  | EmptyString => false
  | String x s' => Ascii.eqb c x || occurs_in c s'
  end.

(** [old in s]. *)
Fixpoint contains (old s : string) : bool :=
  String.prefix old s
  || match s with
     | EmptyString => false
     | String _ s' => contains old s'
     end.

(** ** From the csv files to [exp_conditions_info] *)

Module Path.

(** [s.split(sep)] scans like [s.replace]: [split_from] returns the piece
    that is being read and the pieces after it. *)
Fixpoint split_from (sep : string) (skip : nat) (s : string) : string * list string :=
  match s with
  | EmptyString => (EmptyString, [])
  | String c s' =>
      match skip with
      | S k => split_from sep k s'
      | O =>
          if String.prefix sep s
          then let (p, ps) := split_from sep (String.length sep - 1) s' in
               (EmptyString, p :: ps)
          else let (p, ps) := split_from sep 0 s' in
               (String c p, ps)
      end
  end.

(** [s.split(sep)]; the empty separator is a [ValueError]. *)
Definition split (s sep : string) : result (list string) :=
  match sep with
  | EmptyString => Raise ValueError
  | _ => let (p, ps) := split_from sep 0 s in Ok (p :: ps)
  end.

Definition is_empty {A : Type} (l : list A) : bool :=
  match l with
  | [] => true
  | _ => false
  end.

(** One turn of the loop of [posixpath.normpath] over the components. *)
Definition norm_step (initial_slashes : nat) (new_comps : list string)
    (comp : string) : list string :=
  if String.eqb comp "" || String.eqb comp "." then new_comps
  else if negb (String.eqb comp "..")
          || ((initial_slashes =? 0)%nat && is_empty new_comps)
          || (negb (is_empty new_comps) && String.eqb (last new_comps "") "..")
       then new_comps ++ [comp]
       else if negb (is_empty new_comps) then removelast new_comps
            else new_comps.

(** [os.path.normpath] of [posixpath]. *)
Definition normpath (path : string) : string :=
  if String.eqb path "" then "."
  else
    let initial_slashes :=
      if String.prefix "/" path
      then if String.prefix "//" path && negb (String.prefix "///" path) then 2 else 1
      else 0 in
    let comps := let (p, ps) := split_from "/" 0 path in p :: ps in
    let comps := fold_left (norm_step initial_slashes) comps [] in
    let path := String.concat "/" comps in
    let path :=
      match initial_slashes with
      | 0 => path
      | 1 => String "/" path
      | _ => String "/" (String "/" path)
      end in
    if String.eqb path "" then "." else path.

End Path.

(** [os.path.normpath(csv_file).split(os.path.sep + "Data" + os.path.sep)[1]
      .split(os.path.sep + "Quantification")[0]] *)
Definition root_folder_of (csv_file : string) : result string :=
  parts <- Path.split (Path.normpath csv_file) "/Data/" ;;
  after_data <- Py.index parts 1 ;;
  parts <- Path.split after_data "/Quantification" ;;
  Py.index parts 0.

(** The loop that fills [exp_conditions_info] from [all_csv_files]; the
    table of each condition, which the program reads later from
    [csv_file], is given by [read_csv]. *)
Definition conditions_of (read_csv : string -> table) (all_csv_files : list string)
    : result (list condition) :=
  Py.for_each
    (fun csv_file exp_conditions_info =>
       folder <- root_folder_of csv_file ;;
       Ok (exp_conditions_info
             ++ [{| csv_root_folder := folder;
                    csv_file := csv_file;
                    results_csv := read_csv csv_file |}]))
    all_csv_files [].

(** An occurrence of [old] in [a ++ rest] starts within [a]. *)
Fixpoint starts_in (old a rest : string) : bool :=
  match a with
  | EmptyString => false
  | String _ a' => String.prefix old (a ++ rest) || starts_in old a' rest
  end.


(** ** The picture of an approach, in the words of the specification *)

(** The components of a path. *)
Definition components (path : string) : list string :=
  let (p, ps) := Path.split_from "/" 0 path in p :: ps.

(** The path with every component [old] replaced by [new]. *)
Definition substitute_segment (old new path : string) : string :=
  String.concat "/"
    (map (fun comp => if String.eqb comp old then new else comp) (components path)).

(** The text with its ending [old] replaced by [new]; the text itself when
    it does not end with [old]. *)
Fixpoint substitute_suffix (old new s : string) : string :=
  if String.eqb s old then new
  else match s with
       | EmptyString => EmptyString
       | String c s' => String c (substitute_suffix old new s')
       end.

(** The picture of the approach whose folder is [folder], as the
    specification derives it from the fluorescence picture [primary]: the
    path segment ["Fluorescence"] becomes [folder] and the trailing
    ["_2.jpg"] of the file name becomes ["_1.jpg"]. *)
Definition mask_as_claimed (folder primary : string) : string :=
  substitute_suffix "_2.jpg" "_1.jpg" (substitute_segment "Fluorescence" folder primary).

(** Picture and count of one approach are both [None] when the approach
    is not used, and otherwise a path and an integer. *)
Definition present_together (used : bool) (image : option string)
    (count : option cell) : Prop :=
  if used then exists path z, image = Some path /\ count = Some (CInt z)
  else image = None /\ count = None.

(** ** Sample picture files *)

(** The disk that holds the picture files [pictures] and nothing else. *)
Definition disk_of (pictures : list string) : disk :=
  fun path => if existsb (String.eqb path) pictures then A_picture else Missing.

(** The picture files that the entries name. *)
Definition pictures_of (entries : list info) : list string :=
  flat_map
    (fun i => ROI_Fluorescence_image i
              :: match ROI_Tcount_image i with Some p => [p] | None => [] end
              ++ match ROI_FMcount_image i with Some p => [p] | None => [] end)
    entries.

(** The entries of [sample_condition] when both approaches are used, and
    a disk with their pictures. *)
Definition sample_records : list info :=
  match condition_records Both sample_condition [] with
  | Ok entries => entries
  | Raise _ => []
  end.

Definition sample_disk : disk := disk_of (pictures_of sample_records).

(** A condition whose folder is named [Fluorescence_A], with the cells of
    two images in its table, and the disk with the pictures of these cells
    where the instructions of the program place them: in the folders
    [Fluorescence] and [T_Particles] of the folder [Cropped cells] of the
    condition. *)
Definition condition_Fluorescence_A : condition :=
  {| csv_root_folder := "Fluorescence_A";
     csv_file := "/app/Data/Fluorescence_A/Quantification/Results.csv";
     results_csv :=
       {| Image_used_column := Text_column;
          Cell_quantified_column := Text_column;
          has_Particle_count_threshold := true;
          has_Particle_count_maxima := false;
          rows :=
            [ {| Image_used := "MAX_Row_01.tif"; Cell_quantified := "9_1.roi";
                 Particle_count_threshold := CInt 3; Particle_count_maxima := CNaN |};
              {| Image_used := "MAX_Row_02.tif"; Cell_quantified := "1_1.roi";
                 Particle_count_threshold := CInt 5; Particle_count_maxima := CNaN |} ] |} |}.

Definition disk_Fluorescence_A : disk :=
  disk_of [ "/app/Data/Fluorescence_A/Cropped cells/Fluorescence/Row_01/9_2.jpg";
            "/app/Data/Fluorescence_A/Cropped cells/T_Particles/Row_01/9_1.jpg";
            "/app/Data/Fluorescence_A/Cropped cells/Fluorescence/Row_02/1_2.jpg";
            "/app/Data/Fluorescence_A/Cropped cells/T_Particles/Row_02/1_1.jpg" ].
(** * Properties of the built-ins *)

Example int_examples :
  Py.int "9" = Ok 9%Z /\ Py.int "0012" = Ok 12%Z /\ Py.int " -7 " = Ok (-7)%Z
  /\ Py.int "1_000" = Ok 1000%Z /\ Py.int "+3" = Ok 3%Z
  /\ Py.int "" = Raise ValueError /\ Py.int "-" = Raise ValueError
  /\ Py.int "1__0" = Raise ValueError /\ Py.int "_1" = Raise ValueError
  /\ Py.int "12a" = Raise ValueError /\ Py.int "1 2" = Raise ValueError.
Proof. repeat split; reflexivity. Qed.

(** The separator characters 28 to 31 are not white space for [int]. *)
Example int_separator :
  Py.int (String (ascii_of_nat 28) "5") = Raise ValueError
  /\ Py.int (String (ascii_of_nat 12) "5") = Ok 5%Z.
Proof. split; reflexivity. Qed.

Example str_examples :
  Py.str 0 = "0" /\ Py.str 10 = "10" /\ Py.str (-42) = "-42".
Proof. repeat split; reflexivity. Qed.

Example replace_examples :
  Py.replace "MAX_Row_01.tif" "MAX_" "" = "Row_01.tif"
  /\ Py.replace "aaa" "aa" "b" = "ba"
  /\ Py.replace "a/Fluorescence/x/1_2.jpg" "Fluorescence" "T_Particles" = "a/T_Particles/x/1_2.jpg"
  /\ Py.replace "ab" "" "-" = "-a-b-".
Proof. repeat split; reflexivity. Qed.

Example join_examples :
  Py.join "Cropped cells" ["Fluorescence"; "Row_01"; "3_2.jpg"] = "Cropped cells/Fluorescence/Row_01/3_2.jpg"
  /\ Py.join "a" ["/b"; "c"] = "/b/c"
  /\ Py.join "a/" ["b"; ""] = "a/b/".
Proof. repeat split; reflexivity. Qed.

Section DecimalText.

Import DecimalString.

Local Abbreviation text := decimal_text.

Lemma text_lstrip d : Py.lstrip (text d) = text d.
Proof. destruct d; reflexivity. Qed.

Lemma text_rstrip d : Py.rstrip (text d) = text d.
Proof.
  induction d; cbn [decimal_text NilEmpty.string_of_uint Py.rstrip]; trivial;
    fold (text d); rewrite IHd; destruct d; reflexivity.
Qed.

Lemma text_strip d : Py.strip (text d) = text d.
Proof. unfold Py.strip. rewrite text_lstrip. apply text_rstrip. Qed.

Lemma text_grouped d : Py.grouped true (text d) = true.
Proof. induction d; cbn; trivial. Qed.

Lemma text_ungroup d : Py.ungroup (text d) = text d.
Proof. induction d; cbn; trivial; fold (text d); rewrite IHd; reflexivity. Qed.

Lemma text_digits d :
  d <> Decimal.Nil -> Py.digits (text d) = Some (Z.of_uint d).
Proof.
  intros Hd. unfold Py.digits.
  assert (Hg : Py.grouped false (text d) = true).
  { destruct d; try congruence; cbn; apply text_grouped. }
  rewrite Hg, text_ungroup.
  assert (Hu : NilZero.uint_of_string (text d) = Some d).
  { destruct d; try congruence; apply NilEmpty.usu. }
  rewrite Hu. reflexivity.
Qed.

(** Reading back what [str] printed. *)
Lemma int_str (z : Z) : Py.int (Py.str z) = Ok z.
Proof.
  unfold Py.str.
  destruct z as [|p|p]; [reflexivity| |].
  - cbn [Z.to_int NilZero.string_of_int].
    assert (Hn : Pos.to_uint p <> Decimal.Nil)
      by apply DecimalPos.Unsigned.to_uint_nonnil.
    assert (Hs : NilZero.string_of_uint (Pos.to_uint p) = text (Pos.to_uint p))
      by (destruct (Pos.to_uint p); congruence || reflexivity).
    rewrite Hs. unfold Py.int. rewrite text_strip.
    assert (Hv : match text (Pos.to_uint p) with
                 | String "-" r => option_map Z.opp (Py.digits r)
                 | String "+" r => Py.digits r
                 | _ => Py.digits (text (Pos.to_uint p))
                 end = Py.digits (text (Pos.to_uint p))).
    { destruct (Pos.to_uint p); reflexivity. }
    rewrite Hv, text_digits by exact Hn.
    f_equal. exact (DecimalZ.of_to (Zpos p)).
  - cbn [Z.to_int NilZero.string_of_int].
    assert (Hn : Pos.to_uint p <> Decimal.Nil)
      by apply DecimalPos.Unsigned.to_uint_nonnil.
    assert (Hs : NilZero.string_of_uint (Pos.to_uint p) = text (Pos.to_uint p))
      by (destruct (Pos.to_uint p); congruence || reflexivity).
    rewrite Hs. unfold Py.int.
    assert (Hst : Py.strip (String "-" (text (Pos.to_uint p)))
                  = String "-" (text (Pos.to_uint p))).
    { unfold Py.strip. cbn [Py.lstrip]. change (Py.isspace "-") with false.
      cbn iota. cbn [Py.rstrip]. rewrite text_rstrip.
      destruct (Pos.to_uint p); congruence || reflexivity. }
    rewrite Hst. rewrite text_digits by exact Hn. cbn [option_map].
    f_equal. exact (DecimalZ.of_to (Zneg p)).
Qed.

End DecimalText.

(** ** The error monad *)

Lemma bind_Ok {A B : Type} (m : result A) (k : A -> result B) (b : B) :
  Py.bind m k = Ok b -> exists a, m = Ok a /\ k a = Ok b.
Proof. destruct m; simpl; [eauto|discriminate]. Qed.

(** [bind_inv H as x Hx]: from [H : (x <- m ;; k) = Ok b], the value [x] of
    [m] with [Hx : m = Ok x], leaving [H : k x = Ok b]. *)
Tactic Notation "bind_inv" hyp(H) "as" simple_intropattern(x) simple_intropattern(Hx) :=
  apply bind_Ok in H; destruct H as (x & Hx & H).

Lemma map_result_Forall2 {A B : Type} (f : A -> result B) xs : forall ys,
  Py.map_result f xs = Ok ys -> Forall2 (fun x y => f x = Ok y) xs ys.
Proof.
  induction xs as [|x xs IH]; simpl; intros ys H.
  - injection H as <-. constructor.
  - bind_inv H as y Hy.
    apply bind_Ok in H. destruct H as (ys' & Hys & H).
    injection H as <-. constructor; auto.
Qed.

(** A property kept by every turn of a loop holds when the loop ends. *)
Lemma for_each_invariant {A S : Type} (P : S -> Prop) (body : A -> S -> result S) xs :
  (forall x s s', P s -> body x s = Ok s' -> P s') ->
  forall s s', P s -> Py.for_each body xs s = Ok s' -> P s'.
Proof.
  intros Hbody. induction xs as [|x xs IH]; simpl; intros s s' Hs H.
  - injection H as <-. exact Hs.
  - bind_inv H as s1 H1.
    eapply IH; [|exact H]. eapply Hbody; eassumption.
Qed.
(** * Properties of the grouping loop *)

Lemma in_group_homogeneous t s p :
  Forall (in_group t s) p -> homogeneous p.
Proof.
  intros H a b Ha Hb. rewrite Forall_forall in H.
  destruct (H a Ha) as [-> ->], (H b Hb) as [-> ->]. split; reflexivity.
Qed.

Lemma group_step_keep g i :
  List.length (temp_slide g) <> 20 ->
  in_group (current_title g) (current_subtitle g) i ->
  group_step g i =
    {| all_slides_content := all_slides_content g;
       temp_slide := temp_slide g ++ [i];
       current_title := current_title g;
       current_subtitle := current_subtitle g |}.
Proof.
  intros Hlen [Ht Hs]. unfold group_step.
  apply Nat.eqb_neq in Hlen. rewrite Hlen, Ht, Hs, !String.eqb_refl. reflexivity.
Qed.

Lemma group_step_break g i :
  List.length (temp_slide g) = 20 \/ ~ in_group (current_title g) (current_subtitle g) i ->
  group_step g i =
    {| all_slides_content := all_slides_content g ++ [temp_slide g];
       temp_slide := [i];
       current_title := ROI_title i;
       current_subtitle := ROI_subtitle i |}.
Proof.
  intros H. unfold group_step.
  destruct (Nat.eqb (List.length (temp_slide g)) 20) eqn:E; [reflexivity|].
  destruct (String.eqb_spec (ROI_title i) (current_title g)) as [Ht|Ht]; [|reflexivity].
  destruct (String.eqb_spec (ROI_subtitle i) (current_subtitle g)) as [Hs|Hs]; [|reflexivity].
  apply Nat.eqb_neq in E. destruct H as [H|H]; [contradiction|].
  exfalso. apply H. split; assumption.
Qed.

Lemma in_group_dec t s i : {in_group t s i} + {~ in_group t s i}.
Proof.
  unfold in_group.
  destruct (String.string_dec (ROI_title i) t), (String.string_dec (ROI_subtitle i) s);
    (left; split; assumption) || (right; intros [? ?]; contradiction).
Qed.

Lemma group_step_inv done g i :
  group_inv done g -> group_inv (done ++ [i]) (group_step g i).
Proof.
  intros [Hc Hs Ht Hg Hh].
  destruct (Nat.eq_dec (List.length (temp_slide g)) 20) as [E|E].
  - rewrite group_step_break by (left; exact E).
    constructor; simpl.
    + rewrite concat_app. simpl. rewrite app_nil_r, Hc. reflexivity.
    + apply Forall_app. split; [exact Hs|]. constructor; [lia|constructor].
    + lia.
    + constructor; [split; reflexivity|constructor].
    + apply Forall_app. split; [exact Hh|].
      constructor; [|constructor]. eapply in_group_homogeneous; exact Hg.
  - destruct (in_group_dec (current_title g) (current_subtitle g) i) as [Hi|Hi].
    + rewrite group_step_keep by assumption.
      constructor; simpl.
      * rewrite app_assoc, Hc. reflexivity.
      * exact Hs.
      * rewrite length_app. simpl. lia.
      * apply Forall_app. split; [exact Hg|]. constructor; [exact Hi|constructor].
      * exact Hh.
    + rewrite group_step_break by (right; exact Hi).
      constructor; simpl.
      * rewrite concat_app. simpl. rewrite app_nil_r, Hc. reflexivity.
      * apply Forall_app. split; [exact Hs|]. constructor; [lia|constructor].
      * lia.
      * constructor; [split; reflexivity|constructor].
      * apply Forall_app. split; [exact Hh|].
        constructor; [|constructor]. eapply in_group_homogeneous; exact Hg.
Qed.

Lemma fold_group_step_inv l : forall done g,
  group_inv done g -> group_inv (done ++ l) (fold_left group_step l g).
Proof.
  induction l as [|i l IH]; intros done g H; simpl.
  - rewrite app_nil_r. exact H.
  - replace (done ++ i :: l) with ((done ++ [i]) ++ l)
      by (rewrite <- app_assoc; reflexivity).
    apply IH. apply group_step_inv. exact H.
Qed.

(** The first entry never triggers a change of slide: it is compared with
    its own title and subtitle while [temp_slide] is empty. *)
Lemma group_loop_cons first rest :
  group_loop (first :: rest) =
  Ok (fold_left group_step rest
        {| all_slides_content := [];
           temp_slide := [first];
           current_title := ROI_title first;
           current_subtitle := ROI_subtitle first |}).
Proof.
  unfold group_loop, Py.index. cbn [nth_error Py.bind fold_left].
  unfold group_step at 2.
  cbn [temp_slide current_title current_subtitle all_slides_content List.length].
  rewrite !String.eqb_refl. reflexivity.
Qed.

(** The loop never fails on a non-empty list, and its final state
    satisfies the invariant for the whole list. *)
Lemma group_loop_inv l :
  l <> [] -> exists g, group_loop l = Ok g /\ group_inv l g.
Proof.
  destruct l as [|first rest]; [congruence|]. intros _.
  rewrite group_loop_cons. eexists. split; [reflexivity|].
  apply (fold_group_step_inv rest [first]).
  constructor; simpl; try reflexivity; try lia; repeat constructor.
Qed.

Lemma fold_group_step_same l : forall g,
  Forall (in_group (current_title g) (current_subtitle g)) l ->
  List.length (temp_slide g) + List.length l <= 20 ->
  fold_left group_step l g =
    {| all_slides_content := all_slides_content g;
       temp_slide := temp_slide g ++ l;
       current_title := current_title g;
       current_subtitle := current_subtitle g |}.
Proof.
  induction l as [|i l IH]; intros g Hg Hlen; simpl.
  - rewrite List.app_nil_r. destruct g; reflexivity.
  - inversion Hg as [|? ? Hi Hl]; subst. simpl in Hlen.
    rewrite group_step_keep by (assumption || lia).
    rewrite IH; simpl.
    + rewrite <- app_assoc. reflexivity.
    + exact Hl.
    + rewrite length_app. simpl. lia.
Qed.

(** Sizes of the slides stored while a single group is visited: one slide
    of 20 each time the temporary slide is found full. *)
Lemma fold_group_step_sizes l : forall g,
  Forall (in_group (current_title g) (current_subtitle g)) l ->
  1 <= List.length (temp_slide g) <= 20 ->
  map (@List.length info) (all_slides_content (fold_left group_step l g)) =
  map (@List.length info) (all_slides_content g)
    ++ repeat 20 ((List.length (temp_slide g) + List.length l - 1) / 20).
Proof.
  induction l as [|i l IH]; intros g Hg Hlen; cbn [fold_left List.length].
  - rewrite Nat.add_0_r, Nat.div_small by lia.
    cbn [repeat]. rewrite List.app_nil_r. reflexivity.
  - inversion Hg as [|? ? Hi Hl]; subst.
    destruct (Nat.eq_dec (List.length (temp_slide g)) 20) as [E|E].
    + rewrite group_step_break by (left; exact E).
      rewrite IH; cbn [all_slides_content temp_slide current_title current_subtitle List.length].
      * rewrite map_app, <- app_assoc. cbn [map]. rewrite E. f_equal.
        replace (20 + S (List.length l) - 1) with (1 * 20 + List.length l) by lia.
        rewrite Nat.div_add_l by lia.
        replace (1 + List.length l - 1) with (List.length l) by lia.
        reflexivity.
      * destruct Hi as [-> ->]. exact Hl.
      * lia.
    + rewrite group_step_keep by assumption.
      rewrite IH; cbn [all_slides_content temp_slide current_title current_subtitle].
      * rewrite length_app. cbn [List.length]. do 3 f_equal. lia.
      * exact Hl.
      * rewrite length_app. cbn [List.length]. lia.
Qed.

(** For [k >= 1] entries of one group the function returns [(k-1)/20]
    slides of 20 entries: the entries left in [temp_slide] when the loop
    ends are not part of the result. *)
Lemma group_slides_same_group t s l :
  l <> [] -> Forall (in_group t s) l ->
  exists slides, group_slides l = Ok slides
    /\ map (@List.length info) slides = repeat 20 ((List.length l - 1) / 20).
Proof.
  destruct l as [|first rest]; [congruence|]. intros _ Hg.
  inversion Hg as [|? ? [Ht Hs] Hrest]; subst.
  unfold group_slides. rewrite group_loop_cons. cbn [Py.bind].
  eexists. split; [reflexivity|].
  rewrite fold_group_step_sizes;
    cbn [all_slides_content temp_slide current_title current_subtitle List.length map app].
  - replace (1 + List.length rest - 1) with (S (List.length rest) - 1) by lia.
    reflexivity.
  - exact Hrest.
  - lia.
Qed.

(** Five entries of one image followed by three of another image of the
    same condition: the function returns the first five as its only
    slide. *)
Lemma group_slides_two_images t a b la lb :
  a <> b -> Forall (in_group t a) la -> Forall (in_group t b) lb ->
  List.length la = 5 -> List.length lb = 3 ->
  group_slides (la ++ lb) = Ok [la].
Proof.
  intros Hab Ha Hb Hla Hlb.
  destruct la as [|a1 la']; [discriminate|].
  destruct lb as [|b1 lb']; [discriminate|].
  inversion Ha as [|? ? [Ht1 Hs1] Ha']; subst.
  inversion Hb as [|? ? [Ht2 Hs2] Hb']; subst.
  unfold group_slides. rewrite <- app_comm_cons, group_loop_cons.
  cbn [Py.bind]. rewrite fold_left_app.
  rewrite (fold_group_step_same la'); simpl; [|exact Ha'|simpl in Hla; lia].
  rewrite group_step_break; simpl.
  - rewrite (fold_group_step_same lb'); simpl;
      [reflexivity|rewrite Ht2; exact Hb'|simpl in Hlb; lia].
  - right. intros [_ H]. apply Hab. symmetry. exact H.
Qed.
(** * Properties of the extraction *)

(** ** The sort *)

Lemma key_leb_le a b : key_leb a b = true <-> key_le a b.
Proof.
  unfold key_leb, key_le, text_lt.
  destruct (OrdersEx.String_as_OT.compare_spec (fr_Image_used a) (fr_Image_used b))
    as [E|L|G].
  - rewrite Z.leb_le. split.
    + intros H. right. split; assumption.
    + intros [H|[_ H]]; [|exact H].
      rewrite E in H. exfalso. exact (StrictOrder_Irreflexive _ H).
  - split; [intros _; left; exact L|reflexivity].
  - split; [discriminate|].
    intros [H|[E _]].
    + exfalso. apply (StrictOrder_Irreflexive (fr_Image_used a)).
      exact (StrictOrder_Transitive _ _ _ H G).
    + rewrite E in G. exfalso. exact (StrictOrder_Irreflexive _ G).
Qed.

Lemma key_le_total a b : key_le a b \/ key_le b a.
Proof.
  unfold key_le, text_lt.
  destruct (OrdersEx.String_as_OT.compare_spec (fr_Image_used a) (fr_Image_used b))
    as [E|L|G].
  - destruct (Z.le_ge_cases (fr_Cell_quantified a) (fr_Cell_quantified b)).
    + left. right. split; assumption.
    + right. right. split; [symmetry|]; assumption.
  - left. left. exact L.
  - right. left. exact G.
Qed.

Lemma key_le_trans a b c : key_le a b -> key_le b c -> key_le a c.
Proof.
  unfold key_le, text_lt. intros [H1|[E1 H1]] [H2|[E2 H2]].
  - left. exact (StrictOrder_Transitive _ _ _ H1 H2).
  - left. rewrite <- E2. exact H1.
  - left. rewrite E1. exact H2.
  - right. split; [congruence|lia].
Qed.

Lemma sort_insert_perm x l : Permutation (x :: l) (sort_insert x l).
Proof.
  induction l as [|y l IH]; simpl.
  - apply Permutation_refl.
  - destruct (key_leb y x).
    + eapply perm_trans; [apply perm_swap|]. apply perm_skip. exact IH.
    + apply Permutation_refl.
Qed.

Lemma sort_insert_sorted x l :
  StronglySorted key_le l -> StronglySorted key_le (sort_insert x l).
Proof.
  induction l as [|y l IH]; simpl; intros H.
  - constructor; constructor.
  - inversion H as [|? ? Hl Hy]; subst.
    destruct (key_leb y x) eqn:E.
    + apply key_leb_le in E. constructor; [apply IH; exact Hl|].
      eapply Permutation_Forall; [apply sort_insert_perm|].
      constructor; assumption.
    + assert (Hxy : key_le x y).
      { destruct (key_le_total x y) as [?|Hyx]; [assumption|].
        apply key_leb_le in Hyx. congruence. }
      constructor; [exact H|]. constructor; [exact Hxy|].
      eapply Forall_impl; [|exact Hy]. intros z Hz.
      eapply key_le_trans; eassumption.
Qed.

Lemma fold_sort_insert l : forall acc,
  StronglySorted key_le acc ->
  StronglySorted key_le (fold_left (fun acc x => sort_insert x acc) l acc)
  /\ Permutation (acc ++ l) (fold_left (fun acc x => sort_insert x acc) l acc).
Proof.
  induction l as [|x l IH]; simpl; intros acc H.
  - rewrite List.app_nil_r. split; [exact H|apply Permutation_refl].
  - destruct (IH (sort_insert x acc) (sort_insert_sorted x acc H)) as [Hs Hp].
    split; [exact Hs|].
    eapply perm_trans; [|exact Hp].
    replace (acc ++ x :: l) with ((acc ++ [x]) ++ l)
      by (rewrite <- app_assoc; reflexivity).
    apply Permutation_app_tail.
    eapply perm_trans; [|apply sort_insert_perm].
    apply Permutation_sym, Permutation_cons_append.
Qed.

Lemma sort_values_sorted l : StronglySorted key_le (sort_values l).
Proof. apply fold_sort_insert. constructor. Qed.

Lemma sort_values_perm l : Permutation l (sort_values l).
Proof. apply (fold_sort_insert l []). constructor. Qed.

(** ** From the table to the entries *)

Lemma row_info_subtitle m c r : ROI_subtitle (row_info m c r) = fr_Image_used r.
Proof. destruct m; reflexivity. Qed.

Lemma row_info_name m c r : ROI_name (row_info m c r) = Py.str (fr_Cell_quantified r).
Proof. destruct m; reflexivity. Qed.

Lemma row_info_le m c a b :
  key_le a b -> info_le (row_info m c a) (row_info m c b).
Proof.
  unfold key_le, info_le. rewrite !row_info_subtitle, !row_info_name.
  intros [H|[E H]]; [left; exact H|right].
  split; [exact E|].
  exists (fr_Cell_quantified a), (fr_Cell_quantified b).
  rewrite !int_str. auto.
Qed.

Lemma StronglySorted_map {A B : Type} (R : A -> A -> Prop) (Q : B -> B -> Prop)
    (f : A -> B) l :
  (forall a b, R a b -> Q (f a) (f b)) ->
  StronglySorted R l -> StronglySorted Q (map f l).
Proof.
  intros HRQ. induction 1 as [|a l Hl IH Ha]; simpl; constructor.
  - exact IH.
  - apply Forall_map. eapply Forall_impl; [|exact Ha]. intros b. apply HRQ.
Qed.

Lemma map_result_length {A B : Type} (f : A -> result B) xs ys :
  Py.map_result f xs = Ok ys -> List.length ys = List.length xs.
Proof.
  intros H. apply map_result_Forall2 in H. symmetry.
  eapply Forall2_length. exact H.
Qed.

Lemma map_result_Forall {A B : Type} (f : A -> result B) (P : B -> Prop) xs ys :
  (forall x y, f x = Ok y -> P y) ->
  Py.map_result f xs = Ok ys -> Forall P ys.
Proof.
  intros Hf H. apply map_result_Forall2 in H.
  induction H; constructor; eauto.
Qed.

Lemma map_result_preserves {A : Type} (f : A -> result A) (P : A -> Prop) xs ys :
  (forall x y, P x -> f x = Ok y -> P y) ->
  Forall P xs -> Py.map_result f xs = Ok ys -> Forall P ys.
Proof.
  intros Hf Hxs H. apply map_result_Forall2 in H.
  induction H; inversion Hxs; subst; constructor; eauto.
Qed.

Lemma coerce_column_length used present f rs rs' :
  coerce_column used present f rs = Ok rs' -> List.length rs' = List.length rs.
Proof.
  unfold coerce_column. destruct used; [destruct present|].
  - apply map_result_length.
  - discriminate.
  - intros H. injection H as <-. reflexivity.
Qed.

(** The table of a condition, when it can be built: sorted, as long as the
    file, and coerced where the approach reads it. *)
Lemma sorted_table_spec T_and_FM results_table t :
  sorted_table T_and_FM results_table = Ok t ->
  StronglySorted key_le t
  /\ List.length t = List.length (rows results_table)
  /\ Forall (coerced T_and_FM) t.
Proof.
  unfold sorted_table. intros H.
  bind_inv H as u1 Hu1. bind_inv H as u2 Hu2.
  bind_inv H as t1 H1.
  bind_inv H as t2 H2.
  bind_inv H as t3 H3.
  injection H as <-.
  split; [apply sort_values_sorted|]. split.
  - rewrite <- (Permutation_length (sort_values_perm t3)).
    rewrite (coerce_column_length _ _ _ _ _ H3), (coerce_column_length _ _ _ _ _ H2).
    eapply map_result_length. exact H1.
  - eapply Permutation_Forall; [apply sort_values_perm|].
    assert (HT : Forall (fun r => uses_T T_and_FM = true ->
                           exists z, fr_Particle_count_threshold r = CInt z) t2).
    { unfold coerce_column in H2. destruct (uses_T T_and_FM).
      - destruct (has_Particle_count_threshold results_table); [|discriminate].
        eapply map_result_Forall; [|exact H2].
        intros x y Hxy _. unfold coerce_threshold in Hxy.
        apply bind_Ok in Hxy. destruct Hxy as (z & _ & Hy).
        injection Hy as <-. exists z. reflexivity.
      - apply Forall_forall. intros r _ ?. discriminate. }
    unfold coerce_column in H3. unfold coerced. destruct (uses_FM T_and_FM).
    + destruct (has_Particle_count_maxima results_table); [|discriminate].
      assert (HFM : Forall (fun r => exists z, fr_Particle_count_maxima r = CInt z) t3).
      { eapply map_result_Forall; [|exact H3].
        intros x y Hxy. unfold coerce_maxima in Hxy.
        apply bind_Ok in Hxy. destruct Hxy as (z & _ & Hy).
        injection Hy as <-. exists z. reflexivity. }
      assert (HT3 : Forall (fun r => uses_T T_and_FM = true ->
                              exists z, fr_Particle_count_threshold r = CInt z) t3).
      { eapply map_result_preserves; [|exact HT|exact H3].
        intros x y Hx Hxy. unfold coerce_maxima in Hxy.
        apply bind_Ok in Hxy. destruct Hxy as (z & _ & Hy).
        injection Hy as <-. exact Hx. }
      rewrite Forall_forall in *. intros r Hr. split; [apply HT3; exact Hr|].
      intros _. apply HFM. exact Hr.
    + injection H3 as <-.
      eapply Forall_impl; [|exact HT]. intros r Hr. split; [exact Hr|discriminate].
Qed.

Lemma row_info_well_shaped T_and_FM c r :
  coerced T_and_FM r -> well_shaped T_and_FM (row_info T_and_FM c r).
Proof.
  intros [HT HFM]. unfold well_shaped, approach_fields.
  destruct T_and_FM; cbn [uses_T uses_FM] in *; cbn.
  - destruct (HT eq_refl) as [z ->], (HFM eq_refl) as [z' ->].
    repeat split; eauto; discriminate.
  - destruct (HT eq_refl) as [z ->]. repeat split; eauto; discriminate.
  - destruct (HFM eq_refl) as [z ->]. repeat split; eauto; discriminate.
Qed.

Lemma condition_records_spec T_and_FM c acc recs :
  condition_records T_and_FM c acc = Ok recs ->
  exists t, sorted_table T_and_FM (results_csv c) = Ok t
            /\ recs = acc ++ map (row_info T_and_FM c) t.
Proof.
  unfold condition_records. intros H.
  bind_inv H as t Ht. injection H as <-.
  exists t. split; [exact Ht|reflexivity].
Qed.

(** A table without the column ["Image used"], and one whose column
    ["Cell quantified"] holds numbers: the first [.str] stops the run. *)
Example name_columns :
  sorted_table Both
    {| Image_used_column := Absent_column; Cell_quantified_column := Text_column;
       has_Particle_count_threshold := true; has_Particle_count_maxima := true;
       rows := rows (results_csv sample_condition) |} = Raise KeyError
  /\ sorted_table Both
       {| Image_used_column := Text_column; Cell_quantified_column := Numeric_column;
          has_Particle_count_threshold := true; has_Particle_count_maxima := true;
          rows := rows (results_csv sample_condition) |} = Raise AttributeError.
Proof. split; reflexivity. Qed.
(** * Properties of the slides *)

Lemma index_Ok {A : Type} (xs : list A) i x :
  Py.index xs i = Ok x <-> nth_error xs i = Some x.
Proof.
  unfold Py.index. destruct (nth_error xs i); split; congruence.
Qed.

(** [add_picture] succeeds only on the path of a picture file. *)
Lemma add_picture_Ok files image_file l t w h line sl sl' :
  add_picture files image_file l t w h line sl = Ok sl' ->
  exists path, image_file = Some path /\ files path = A_picture
    /\ sl' = sl ++ [Picture (Some path) l t w h line].
Proof.
  unfold add_picture. destruct image_file as [path|]; [|discriminate].
  destruct (files path) eqn:E; try discriminate.
  intros H. injection H as <-. exists path. auto.
Qed.

(** What one turn of the loop of [slide_maker] adds, when it succeeds. *)
Lemma slot_shapes_Ok files F P FL PL i sl sl' :
  slot_shapes files F P FL PL i sl = Ok sl' ->
  exists f p ic lc fl pl,
    nth_error F i = Some f /\ nth_error P i = Some (Some p)
    /\ files f = A_picture /\ files p = A_picture
    /\ nth_error image_coordinates i = Some ic
    /\ nth_error image_labels_coordinates i = Some lc
    /\ nth_error FL i = Some fl /\ nth_error PL i = Some pl
    /\ sl' = sl ++
         [ Picture (Some f) (Cm (item0 ic)) (Cm (item1 ic))
             (Cm image_width) (Cm image_height) None;
           Textbox (Cm (item0 lc)) (Cm (item1 lc))
             (Cm image_labels_width) (Cm image_labels_height)
             fl false (Pt 200) font;
           Picture (Some p) (Cm (item2 ic)) (Cm (item3 ic))
             (Cm image_width) (Cm image_height) (Some (Pt 5));
           Textbox (Cm (item2 lc)) (Cm (item3 lc))
             (Cm image_labels_width) (Cm image_labels_height)
             ("P=" ++ str_count pl) false (Pt 200) font ].
Proof.
  unfold slot_shapes. intros H.
  bind_inv H as f Hf.
  bind_inv H as p Hp.
  bind_inv H as ic Hic.
  bind_inv H as sl1 H1.
  bind_inv H as lc Hlc.
  bind_inv H as fl Hfl.
  bind_inv H as sl2 H2.
  bind_inv H as pl Hpl.
  injection H as <-.
  apply index_Ok in Hf, Hp, Hic, Hlc, Hfl, Hpl.
  apply add_picture_Ok in H1. destruct H1 as (f' & Ef & Hdf & ->).
  injection Ef as <-.
  apply add_picture_Ok in H2. destruct H2 as (p' & -> & Hdp & ->).
  exists f, p', ic, lc, fl, pl. repeat (split; [assumption|]).
  rewrite <- !app_assoc. reflexivity.
Qed.

(** The loop of [slide_maker] from slot [a] on, when it succeeds: four
    shapes per slot are appended, the fourth being the count label. *)
Lemma slots_Ok files F P FL PL n : forall a sl sl',
  Py.for_each (slot_shapes files F P FL PL) (seq a n) sl = Ok sl' ->
  exists ext, sl' = sl ++ ext /\ List.length ext = 4 * n
    /\ forall k, k < n ->
         exists pl lc, nth_error PL (a + k) = Some pl
           /\ nth_error image_labels_coordinates (a + k) = Some lc
           /\ nth_error ext (3 + 4 * k) =
                Some (Textbox (Cm (item2 lc)) (Cm (item3 lc))
                        (Cm image_labels_width) (Cm image_labels_height)
                        ("P=" ++ str_count pl) false (Pt 200) font).
Proof.
  induction n as [|n IH]; intros a sl sl' H.
  - simpl in H. injection H as <-. exists []. rewrite List.app_nil_r.
    split; [reflexivity|]. split; [reflexivity|]. intros k Hk. lia.
  - cbn [seq Py.for_each] in H. bind_inv H as sl1 H1.
    apply slot_shapes_Ok in H1.
    destruct H1 as (f & p & ic & lc & fl & pl & Hf & Hp & Hdf & Hdp & Hic & Hlc
                   & Hfl & Hpl & ->).
    apply IH in H. destruct H as (ext & -> & Hlen & Hk).
    eexists. split; [rewrite <- app_assoc; reflexivity|].
    split; [rewrite length_app, Hlen; simpl; lia|].
    intros k Hlt. destruct k as [|k].
    + exists pl, lc. rewrite Nat.add_0_r. repeat split; assumption.
    + destruct (Hk k ltac:(lia)) as (pl' & lc' & Hpl' & Hlc' & Hnth).
      exists pl', lc'. replace (a + S k) with (S a + k) by lia.
      split; [exact Hpl'|]. split; [exact Hlc'|].
      replace (3 + 4 * S k) with (4 + (3 + 4 * k)) by lia. exact Hnth.
Qed.

(** [slide_maker] appends one slide and leaves the others as they were;
    the slide does not depend on the presentation it is appended to. *)
Lemma slide_maker_append files pres t s n F P FL PL pres' :
  slide_maker files pres t s n F P FL PL = Ok pres' ->
  exists sl, pres' = pres ++ [sl]
             /\ slide_maker files [] t s n F P FL PL = Ok [sl].
Proof.
  unfold slide_maker. intros H.
  bind_inv H as sl Hsl. injection H as <-.
  exists sl. rewrite Hsl. split; reflexivity.
Qed.

Lemma add_slide_for_append files image_of count_of slide_content pres pres' :
  add_slide_for files image_of count_of slide_content pres = Ok pres' ->
  exists sl, pres' = pres ++ [sl]
             /\ add_slide_for files image_of count_of slide_content [] = Ok [sl].
Proof.
  unfold add_slide_for. intros H.
  bind_inv H as first Hfirst.
  rewrite Hfirst. cbn [Py.bind].
  apply slide_maker_append. exact H.
Qed.

(** The slide made for a group of entries: its size, and the text of each
    count label. *)
Lemma add_slide_for_labels files image_of count_of slide_content sl :
  add_slide_for files image_of count_of slide_content [] = Ok [sl] ->
  List.length sl = 2 + 4 * List.length slide_content
  /\ forall i r, nth_error slide_content i = Some r ->
       count_label i ("P=" ++ str_count (count_of r)) sl.
Proof.
  unfold add_slide_for, slide_maker. intros H.
  bind_inv H as first _.
  bind_inv H as sl0 Hsl.
  injection H as <-.
  apply slots_Ok in Hsl. destruct Hsl as (ext & -> & Hlen & Hk).
  split; [simpl; rewrite Hlen; reflexivity|].
  intros i r Hr.
  assert (Hi : i < List.length slide_content)
    by (apply nth_error_Some; congruence).
  destruct (Hk i Hi) as (pl & lc & Hpl & Hlc & Hnth).
  simpl in Hpl, Hlc. rewrite nth_error_map, Hr in Hpl. injection Hpl as <-.
  exists lc. split; [exact Hlc|].
  replace (5 + 4 * i) with (2 + (3 + 4 * i)) by lia. exact Hnth.
Qed.

(** The presentation of one approach: the template, then one slide per
    element of [all_slides_content]. *)
Lemma deck_slides files image_of count_of slides_content : forall template pres,
  Py.for_each (add_slide_for files image_of count_of) slides_content template
    = Ok pres ->
  exists slides, pres = template ++ slides
    /\ Forall2 (fun c sl => add_slide_for files image_of count_of c [] = Ok [sl])
         slides_content slides.
Proof.
  induction slides_content as [|c cs IH]; intros template pres H.
  - simpl in H. injection H as <-. exists []. rewrite List.app_nil_r.
    split; [reflexivity|constructor].
  - cbn [Py.for_each] in H. bind_inv H as p1 H1.
    apply add_slide_for_append in H1. destruct H1 as (sl & -> & Hsl).
    apply IH in H. destruct H as (slides & -> & Hall).
    exists (sl :: slides). rewrite <- app_assoc. split; [reflexivity|].
    constructor; assumption.
Qed.

(** * Properties of a whole run *)

(** Every entry that the extraction delivers has the shape its approach
    prescribes. *)
Lemma extract_records_well_shaped T_and_FM exp_conditions_info recs :
  extract_records T_and_FM exp_conditions_info = Ok recs ->
  Forall (well_shaped T_and_FM) recs.
Proof.
  unfold extract_records.
  apply (for_each_invariant (Forall (well_shaped T_and_FM))); [|constructor].
  intros c acc acc' Hacc H.
  apply condition_records_spec in H. destruct H as (t & Ht & ->).
  apply sorted_table_spec in Ht. destruct Ht as (_ & _ & Hco).
  apply Forall_app. split; [exact Hacc|].
  apply Forall_map. eapply Forall_impl; [|exact Hco].
  intros r. apply row_info_well_shaped.
Qed.

(** The entries of the slides are entries of [all_info_for_slides]; those
    still in [temp_slide] when the loop ends are in no slide. *)
Lemma group_slides_cover l :
  l <> [] ->
  exists slides rest, group_slides l = Ok slides
    /\ rest <> [] /\ List.concat slides ++ rest = l.
Proof.
  intros Hl. destruct (group_loop_inv l Hl) as (g & Hg & Hinv).
  exists (all_slides_content g), (temp_slide g).
  unfold group_slides. rewrite Hg. split; [reflexivity|].
  split; [|apply Hinv].
  intros E. pose proof (inv_temp _ _ Hinv) as Ht. rewrite E in Ht. simpl in Ht. lia.
Qed.

Lemma group_slides_In l slides c r :
  group_slides l = Ok slides -> In c slides -> In r c -> In r l.
Proof.
  intros H Hc Hr. destruct l as [|first rest]; [discriminate|].
  destruct (group_slides_cover (first :: rest)) as (slides' & tl & H' & _ & <-);
    [discriminate|].
  rewrite H in H'. injection H' as <-.
  apply in_or_app. left. apply in_concat. exists c. split; assumption.
Qed.

(** The slide made for a group whose counts are all integers. *)
Lemma slide_count_labels files image_of count_of c sl :
  add_slide_for files image_of count_of c [] = Ok [sl] ->
  (forall r, In r c -> exists z, count_of r = Some (CInt z)) ->
  count_labels count_of c sl.
Proof.
  intros Hsl Hcount.
  apply add_slide_for_labels in Hsl. destruct Hsl as [Hlen Hlab].
  split; [exact Hlen|]. intros i r Hr.
  assert (Hin : In r c) by (eapply nth_error_In; exact Hr).
  destruct (Hcount r Hin) as [z Hz].
  exists z. split; [exact Hz|].
  specialize (Hlab i r Hr). rewrite Hz in Hlab. exact Hlab.
Qed.

Lemma deck_count_labels files image_of count_of slides_content slides :
  Forall2 (fun c sl => add_slide_for files image_of count_of c [] = Ok [sl])
    slides_content slides ->
  (forall c r, In c slides_content -> In r c -> exists z, count_of r = Some (CInt z)) ->
  Forall2 (count_labels count_of) slides_content slides.
Proof.
  induction 1 as [|c sl cs sls Hsl Hall IH]; intros Hcount; constructor.
  - eapply slide_count_labels; [exact Hsl|].
    intros r Hr. apply (Hcount c r); [left; reflexivity|exact Hr].
  - apply IH. intros c' r Hc' Hr. apply (Hcount c' r); [right|]; assumption.
Qed.

Lemma deck_of_approach (used : bool) files image_of count_of template
    slides_content deck :
  (if used then
     p <- Py.for_each (add_slide_for files image_of count_of) slides_content template ;;
     Ok (Some p)
   else Ok None) = Ok deck ->
  (forall c r, used = true -> In c slides_content -> In r c ->
               exists z, count_of r = Some (CInt z)) ->
  deck_labels used count_of template slides_content deck.
Proof.
  unfold deck_labels. destruct used; intros H Hcount.
  - bind_inv H as p Hp. injection H as <-.
    apply deck_slides in Hp. destruct Hp as (slides & -> & Hall).
    exists slides. split; [reflexivity|].
    eapply deck_count_labels; [exact Hall|].
    intros c r. apply Hcount. reflexivity.
  - injection H as <-. reflexivity.
Qed.
(** * More on the grouping loop *)

Lemma each_closed_grow slides rest l :
  rest <> [] -> each_closed slides rest -> each_closed slides (rest ++ l).
Proof.
  intros Hrest. induction slides as [|p slides IH]; simpl; [trivial|].
  intros [(next & Hnext & Hp) Hall]. split; [|apply IH; exact Hall].
  exists next. split; [|exact Hp].
  rewrite app_assoc.
  destruct (List.concat slides ++ rest) as [|x xs] eqn:E; [|exact Hnext].
  apply app_eq_nil in E. destruct E as [_ E]. contradiction.
Qed.

Lemma each_closed_store slides temp i :
  temp <> [] -> each_closed slides temp -> closed_by temp i ->
  each_closed (slides ++ [temp]) [i].
Proof.
  intros Htemp Hall Hi. induction slides as [|p slides IH]; simpl.
  - split; [|trivial]. exists i. split; [reflexivity|exact Hi].
  - destruct Hall as [(next & Hnext & Hp) Hall]. split; [|apply IH; exact Hall].
    exists next. split; [|exact Hp].
    rewrite concat_app. simpl. rewrite List.app_nil_r, <- app_assoc.
    rewrite app_assoc.
    destruct (List.concat slides ++ temp) as [|x xs] eqn:E; [|exact Hnext].
    apply app_eq_nil in E. destruct E as [_ E]. contradiction.
Qed.

Lemma group_step_closed done g i :
  group_inv done g ->
  each_closed (all_slides_content g) (temp_slide g) ->
  each_closed (all_slides_content (group_step g i)) (temp_slide (group_step g i)).
Proof.
  intros Hinv Hall.
  assert (Htemp : temp_slide g <> []).
  { intros E. pose proof (inv_temp _ _ Hinv) as H. rewrite E in H. simpl in H. lia. }
  destruct (Nat.eq_dec (List.length (temp_slide g)) 20) as [E|E].
  - rewrite group_step_break by (left; exact E). simpl.
    apply each_closed_store; [exact Htemp|exact Hall|left; exact E].
  - destruct (in_group_dec (current_title g) (current_subtitle g) i) as [Hi|Hi].
    + rewrite group_step_keep by assumption. simpl.
      apply each_closed_grow; assumption.
    + rewrite group_step_break by (right; exact Hi). simpl.
      apply each_closed_store; [exact Htemp|exact Hall|].
      right. intros a Ha [Ht Hs]. apply Hi.
      pose proof (inv_group _ _ Hinv) as Hg. rewrite Forall_forall in Hg.
      destruct (Hg a Ha) as [Hta Hsa]. split; congruence.
Qed.

Lemma fold_group_step_closed l : forall done g,
  group_inv done g ->
  each_closed (all_slides_content g) (temp_slide g) ->
  each_closed (all_slides_content (fold_left group_step l g))
              (temp_slide (fold_left group_step l g)).
Proof.
  induction l as [|i l IH]; intros done g Hinv Hall; simpl; [exact Hall|].
  apply (IH (done ++ [i])).
  - apply group_step_inv. exact Hinv.
  - eapply group_step_closed; eassumption.
Qed.
(** * More on the slides *)

(** ** Outcome of [slide_maker] *)

(** A turn of the loop that succeeds found its slot in the four argument
    lists and in the tables. *)
Lemma slot_shapes_Ok_bounds files F P FL PL i sl sl' :
  slot_shapes files F P FL PL i sl = Ok sl' ->
  i < 20 /\ i < List.length F /\ i < List.length P
  /\ i < List.length FL /\ i < List.length PL.
Proof.
  intros H. apply slot_shapes_Ok in H.
  destruct H as (f & p & ic & lc & fl & pl & Hf & Hp & _ & _ & Hic & _ & Hfl & Hpl & _).
  assert (Hi : i < List.length image_coordinates)
    by (apply nth_error_Some; congruence).
  repeat split; try (apply nth_error_Some; congruence). exact Hi.
Qed.

Lemma slots_Ok_bounds files F P FL PL n : forall a sl sl',
  Py.for_each (slot_shapes files F P FL PL) (seq a n) sl = Ok sl' ->
  n = 0 \/ (a + n <= 20 /\ a + n <= List.length F /\ a + n <= List.length P
            /\ a + n <= List.length FL /\ a + n <= List.length PL).
Proof.
  induction n as [|n IH]; intros a sl sl' H; [left; reflexivity|right].
  cbn [seq Py.for_each] in H. bind_inv H as sl1 H1.
  apply slot_shapes_Ok_bounds in H1. apply IH in H.
  destruct H as [->|H]; lia.
Qed.

Lemma slide_maker_Ok_bounds files pres t s n F P FL PL pres' :
  slide_maker files pres t s n F P FL PL = Ok pres' ->
  n <= 20 /\ n <= List.length F /\ n <= List.length P
  /\ n <= List.length FL /\ n <= List.length PL.
Proof.
  unfold slide_maker. intros H. bind_inv H as sl Hsl.
  apply slots_Ok_bounds in Hsl. destruct Hsl as [->|Hsl]; lia.
Qed.

(** ** The pictures of a slide *)

(** A loop that succeeds found, at every slot, a fluorescence picture and
    a particle picture that are picture files. *)
Lemma slots_Ok_pictures files F P FL PL n : forall a sl sl',
  Py.for_each (slot_shapes files F P FL PL) (seq a n) sl = Ok sl' ->
  forall k, k < n ->
    exists f p, nth_error F (a + k) = Some f /\ nth_error P (a + k) = Some (Some p)
                /\ files f = A_picture /\ files p = A_picture.
Proof.
  induction n as [|n IH]; intros a sl sl' H k Hk; [lia|].
  cbn [seq Py.for_each] in H. bind_inv H as sl1 H1.
  destruct k as [|k].
  - apply slot_shapes_Ok in H1.
    destruct H1 as (f & p & ic & lc & fl & pl & Hf & Hp & Hdf & Hdp & _).
    exists f, p. rewrite Nat.add_0_r. auto.
  - replace (a + S k) with (S a + k) by lia. eapply IH; [exact H|lia].
Qed.

Lemma slide_maker_Ok_pictures files pres t s n F P FL PL pres' :
  slide_maker files pres t s n F P FL PL = Ok pres' ->
  forall i, i < n ->
    exists f p, nth_error F i = Some f /\ nth_error P i = Some (Some p)
                /\ files f = A_picture /\ files p = A_picture.
Proof.
  unfold slide_maker. intros H. bind_inv H as sl Hsl.
  intros i Hi. exact (slots_Ok_pictures _ _ _ _ _ _ _ _ _ Hsl i Hi).
Qed.

(** ** Geometry of a slide *)

(** The two tables agree with the grid at every slot. *)
Lemma tables_on_grid i ic lc :
  nth_error image_coordinates i = Some ic ->
  nth_error image_labels_coordinates i = Some lc ->
  [ (Cm (item0 ic), Cm (item1 ic), Cm image_width, Cm image_height);
    (Cm (item0 lc), Cm (item1 lc), Cm image_labels_width, Cm image_labels_height);
    (Cm (item2 ic), Cm (item3 ic), Cm image_width, Cm image_height);
    (Cm (item2 lc), Cm (item3 lc), Cm image_labels_width, Cm image_labels_height) ]
  = slot_geometry i.
Proof.
  intros Hic Hlc.
  do 20 (destruct i as [|i];
         [cbn in Hic, Hlc; injection Hic as <-; injection Hlc as <-; reflexivity|]).
  cbn in Hic. destruct i; discriminate.
Qed.

Lemma slots_geometry files F P FL PL n : forall a sl sl',
  Py.for_each (slot_shapes files F P FL PL) (seq a n) sl = Ok sl' ->
  map geometry sl' = map geometry sl ++ flat_map slot_geometry (seq a n).
Proof.
  induction n as [|n IH]; intros a sl sl' H.
  - cbn in H. injection H as <-. cbn. rewrite List.app_nil_r. reflexivity.
  - cbn [seq Py.for_each] in H. bind_inv H as sl1 H1.
    apply slot_shapes_Ok in H1.
    destruct H1 as (f & p & ic & lc & fl & pl & _ & _ & _ & _ & Hic & Hlc & _ & _ & ->).
    apply IH in H. rewrite H, map_app. cbn [map geometry flat_map].
    rewrite (tables_on_grid a ic lc Hic Hlc), <- app_assoc. reflexivity.
Qed.

Lemma slide_maker_geometry files pres t s n F P FL PL pres' :
  slide_maker files pres t s n F P FL PL = Ok pres' ->
  map geometry (last pres' []) = grid_geometry n.
Proof.
  unfold slide_maker. intros H. bind_inv H as sl Hsl. injection H as <-.
  rewrite last_last. apply slots_geometry in Hsl. rewrite Hsl. reflexivity.
Qed.

(** ** What a slide shows *)

Lemma skipn_nth_error {A : Type} (l : list A) : forall a x,
  nth_error l a = Some x -> skipn a l = x :: skipn (S a) l.
Proof.
  induction l as [|y l IH]; intros [|a] x H; try discriminate.
  - injection H as <-. reflexivity.
  - cbn in H. apply IH in H. exact H.
Qed.

Lemma nth_error_map_Some {A B : Type} (f : A -> B) l i y :
  nth_error (map f l) i = Some y -> exists x, nth_error l i = Some x /\ y = f x.
Proof.
  rewrite nth_error_map. destruct (nth_error l i) as [x|]; [|discriminate].
  intros H. injection H as <-. eauto.
Qed.

(** The loop of [slide_maker] on the four lists that [generate_pptxs]
    draws from one group of entries: slot [i] shows entry [i]. *)
Lemma slots_looks files image_of count_of (c : list info) n : forall a sl sl',
  a + n = List.length c ->
  Py.for_each
    (slot_shapes files (map ROI_Fluorescence_image c) (map image_of c)
       (map ROI_name c) (map count_of c))
    (seq a n) sl = Ok sl' ->
  map shape_look sl'
  = map shape_look sl ++ flat_map (entry_looks image_of count_of) (skipn a c).
Proof.
  induction n as [|n IH]; intros a sl sl' Hlen H.
  - cbn in H. injection H as <-.
    rewrite Nat.add_0_r in Hlen. subst a. rewrite skipn_all.
    cbn. rewrite List.app_nil_r. reflexivity.
  - cbn [seq Py.for_each] in H. bind_inv H as sl1 H1.
    apply slot_shapes_Ok in H1.
    destruct H1 as (f & p & ic & lc & fl & pl & Hf & Hp & _ & _ & _ & _ & Hfl & Hpl & ->).
    apply nth_error_map_Some in Hf, Hp, Hfl, Hpl.
    destruct Hf as (r & Hr & ->), Hp as (r1 & Hr1 & Ep),
             Hfl as (r2 & Hr2 & ->), Hpl as (r3 & Hr3 & ->).
    assert (r1 = r) by congruence. assert (r2 = r) by congruence.
    assert (r3 = r) by congruence. subst r1 r2 r3.
    apply IH in H; [|lia].
    rewrite H, map_app, (skipn_nth_error c a r Hr).
    cbn [map shape_look flat_map entry_looks]. rewrite <- app_assoc.
    cbn [app]. rewrite Ep. reflexivity.
Qed.

Lemma add_slide_for_looks files image_of count_of c pres pres' :
  add_slide_for files image_of count_of c pres = Ok pres' ->
  exists first sl,
    hd_error c = Some first /\ pres' = pres ++ [sl]
    /\ map shape_look sl
       = Text (ROI_title first) true (Pt 320) font
         :: Text (ROI_subtitle first) false (Pt 320) font
         :: flat_map (entry_looks image_of count_of) c.
Proof.
  unfold add_slide_for, slide_maker. intros H.
  bind_inv H as first Hfirst. bind_inv H as sl Hsl. injection H as <-.
  apply index_Ok in Hfirst.
  exists first, sl. split; [destruct c; [discriminate|exact Hfirst]|].
  split; [reflexivity|].
  apply slots_looks in Hsl; [|reflexivity]. rewrite Hsl. reflexivity.
Qed.

(** ** Outcome of a presentation *)

Lemma add_slide_for_Ok_size files image_of count_of c pres pres' :
  add_slide_for files image_of count_of c pres = Ok pres' ->
  1 <= List.length c <= 20.
Proof.
  unfold add_slide_for. intros H. bind_inv H as first Hfirst.
  apply index_Ok in Hfirst.
  apply slide_maker_Ok_bounds in H. destruct H as (H & _).
  split; [|exact H]. destruct c; [discriminate|simpl; lia].
Qed.

(** A slide is made only for entries whose two pictures are picture
    files. *)
Lemma add_slide_for_Ok_pictures files image_of count_of c pres pres' :
  add_slide_for files image_of count_of c pres = Ok pres' ->
  forall r, In r c ->
    files (ROI_Fluorescence_image r) = A_picture
    /\ exists p, image_of r = Some p /\ files p = A_picture.
Proof.
  unfold add_slide_for. intros H. bind_inv H as first Hfirst.
  intros r Hr. apply In_nth_error in Hr. destruct Hr as [i Hi].
  assert (Hlt : i < List.length c) by (apply nth_error_Some; congruence).
  destruct (slide_maker_Ok_pictures _ _ _ _ _ _ _ _ _ _ H i Hlt)
    as (f & p & Hf & Hp & Hdf & Hdp).
  rewrite nth_error_map, Hi in Hf, Hp. cbn in Hf, Hp.
  injection Hf as <-. injection Hp as Ep.
  split; [exact Hdf|]. exists p. split; [exact Ep|exact Hdp].
Qed.

(** The loop over [all_slides_content] for one approach, when it
    completes: every group has 1 to 20 entries, and one slide per group
    has been appended. *)
Lemma deck_Ok files image_of count_of cs : forall template pres,
  Py.for_each (add_slide_for files image_of count_of) cs template = Ok pres ->
  Forall (fun c => 1 <= List.length c <= 20) cs
  /\ exists slides, pres = template ++ slides
                    /\ List.length slides = List.length cs.
Proof.
  induction cs as [|c cs IH]; intros template pres H.
  - cbn in H. injection H as <-. split; [constructor|].
    exists []. rewrite List.app_nil_r. split; reflexivity.
  - cbn [Py.for_each] in H. bind_inv H as p1 H1.
    pose proof (add_slide_for_Ok_size _ _ _ _ _ _ H1) as Hc.
    apply add_slide_for_append in H1. destruct H1 as (sl & -> & _).
    apply IH in H. destruct H as (Hcs & slides & -> & Hlen).
    split; [constructor; assumption|].
    exists (sl :: slides). rewrite <- app_assoc. split; [reflexivity|].
    simpl. rewrite Hlen. reflexivity.
Qed.

Lemma deck_Ok_pictures files image_of count_of cs : forall template pres,
  Py.for_each (add_slide_for files image_of count_of) cs template = Ok pres ->
  forall c r, In c cs -> In r c ->
    files (ROI_Fluorescence_image r) = A_picture
    /\ exists p, image_of r = Some p /\ files p = A_picture.
Proof.
  induction cs as [|c0 cs IH]; intros template pres H c r Hc Hr;
    [contradiction|].
  cbn [Py.for_each] in H. bind_inv H as p1 H1.
  destruct Hc as [->|Hc].
  - eapply add_slide_for_Ok_pictures; eassumption.
  - eapply IH; eassumption.
Qed.

(** ** The slide of an approach *)

(** A slide is made only from entries that have the picture of the
    approach, hence only for an approach that is used; the counts are then
    integers and the labels read accordingly. *)
Lemma slide_of_approach files (used : bool) folder image_of count_of c pres pres' :
  (forall r, In r c -> approach_fields used folder r (image_of r) (count_of r)) ->
  add_slide_for files image_of count_of c pres = Ok pres' ->
  used = true
  /\ exists sl, pres' = pres ++ [sl] /\ count_labels count_of c sl.
Proof.
  intros Hfields H.
  assert (Hused : used = true).
  { pose proof (add_slide_for_Ok_size _ _ _ _ _ _ H) as Hsize.
    destruct c as [|r c]; [simpl in Hsize; lia|].
    destruct (add_slide_for_Ok_pictures _ _ _ _ _ _ H r (or_introl eq_refl))
      as (_ & p & Hp & _).
    specialize (Hfields r (or_introl eq_refl)). unfold approach_fields in Hfields.
    destruct used; [reflexivity|]. destruct Hfields as [Hnone _]. congruence. }
  split; [exact Hused|].
  apply add_slide_for_append in H. destruct H as (sl & -> & Hsl).
  exists sl. split; [reflexivity|].
  eapply slide_count_labels; [exact Hsl|].
  intros r Hr. specialize (Hfields r Hr). unfold approach_fields in Hfields.
  rewrite Hused in Hfields. apply Hfields.
Qed.
(** * More on the extraction *)

(** ** Loops *)

Lemma for_each_app {A S : Type} (body : A -> S -> result S) xs ys s :
  Py.for_each body (xs ++ ys) s
  = Py.bind (Py.for_each body xs s) (Py.for_each body ys).
Proof.
  revert s. induction xs as [|x xs IH]; intros s; cbn [app Py.for_each].
  - reflexivity.
  - destruct (body x s) as [s1|e]; cbn [Py.bind]; [apply IH|reflexivity].
Qed.

(** ** The sort reads the keys only *)

Lemma cons_eq_inv {A : Type} (a b : A) l l' :
  a :: l = b :: l' -> a = b /\ l = l'.
Proof. intros H. injection H as -> ->. split; reflexivity. Qed.

Lemma key_leb_row_key a b a' b' :
  row_key a = row_key a' -> row_key b = row_key b' ->
  key_leb a b = key_leb a' b'.
Proof.
  unfold row_key, key_leb. intros Ha Hb.
  injection Ha as -> ->. injection Hb as -> ->. reflexivity.
Qed.

Lemma sort_insert_keys x x' l l' :
  row_key x = row_key x' -> map row_key l = map row_key l' ->
  map row_key (sort_insert x l) = map row_key (sort_insert x' l').
Proof.
  intros Hx. revert l'. induction l as [|y l IH]; intros [|y' l'] Hl;
    try discriminate; cbn [sort_insert map].
  - rewrite Hx. reflexivity.
  - cbn [map] in Hl. apply cons_eq_inv in Hl. destruct Hl as [Hy Hl].
    rewrite (key_leb_row_key y x y' x' Hy Hx).
    destruct (key_leb y' x'); cbn [map].
    + rewrite Hy, (IH l' Hl). reflexivity.
    + rewrite Hx, Hy, Hl. reflexivity.
Qed.

Lemma sort_values_keys l l' :
  map row_key l = map row_key l' ->
  map row_key (sort_values l) = map row_key (sort_values l').
Proof.
  unfold sort_values.
  assert (H : forall acc acc', map row_key acc = map row_key acc' ->
              map row_key l = map row_key l' ->
              map row_key (fold_left (fun acc x => sort_insert x acc) l acc)
              = map row_key (fold_left (fun acc x => sort_insert x acc) l' acc')).
  { revert l'. induction l as [|x l IH]; intros [|x' l'] acc acc' Hacc Hl;
      try discriminate; cbn [fold_left]; [exact Hacc|].
    cbn [map] in Hl. apply cons_eq_inv in Hl. destruct Hl as [Hx Hl].
    apply IH; [|exact Hl]. apply sort_insert_keys; assumption. }
  apply H. reflexivity.
Qed.

(** The sort commutes with a change of the rows that keeps their keys. *)
Lemma sort_insert_map (f : frame_row -> frame_row) x l :
  (forall r, row_key (f r) = row_key r) ->
  sort_insert (f x) (map f l) = map f (sort_insert x l).
Proof.
  intros Hf. induction l as [|y l IH]; cbn [sort_insert map]; [reflexivity|].
  rewrite (key_leb_row_key (f y) (f x) y x (Hf y) (Hf x)).
  destruct (key_leb y x); cbn [map]; [rewrite IH|]; reflexivity.
Qed.

Lemma sort_values_map (f : frame_row -> frame_row) l :
  (forall r, row_key (f r) = row_key r) ->
  sort_values (map f l) = map f (sort_values l).
Proof.
  intros Hf. unfold sort_values.
  change (@nil frame_row) with (map f []) at 1.
  generalize (@nil frame_row) as acc.
  induction l as [|x l IH]; intros acc; cbn [fold_left map]; [reflexivity|].
  rewrite sort_insert_map by exact Hf. apply IH.
Qed.

(** The coercions keep the keys. *)
Lemma coerce_column_keys used present f rs rs' :
  (forall r r', f r = Ok r' -> row_key r' = row_key r) ->
  coerce_column used present f rs = Ok rs' -> map row_key rs' = map row_key rs.
Proof.
  intros Hf. unfold coerce_column. destruct used; [destruct present|].
  - intros H. apply map_result_Forall2 in H.
    induction H; cbn [map]; [reflexivity|]. f_equal; [eapply Hf; eassumption|assumption].
  - discriminate.
  - intros H. injection H as <-. reflexivity.
Qed.

Lemma coerce_threshold_key r r' : coerce_threshold r = Ok r' -> row_key r' = row_key r.
Proof. unfold coerce_threshold. intros H. bind_inv H as z Hz. injection H as <-. reflexivity. Qed.

Lemma coerce_maxima_key r r' : coerce_maxima r = Ok r' -> row_key r' = row_key r.
Proof. unfold coerce_maxima. intros H. bind_inv H as z Hz. injection H as <-. reflexivity. Qed.

(** The keys of the sorted table are those of the cleaned rows, sorted;
    they do not depend on the approach. *)
Lemma sorted_table_keys T_and_FM results_table t :
  sorted_table T_and_FM results_table = Ok t ->
  exists t1, Py.map_result clean_row (rows results_table) = Ok t1
             /\ map row_key t = map row_key (sort_values t1).
Proof.
  unfold sorted_table. intros H.
  bind_inv H as u1 Hu1. bind_inv H as u2 Hu2.
  bind_inv H as t1 H1. bind_inv H as t2 H2. bind_inv H as t3 H3.
  injection H as <-. exists t1. split; [exact H1|].
  apply sort_values_keys.
  rewrite (coerce_column_keys _ _ _ _ _ coerce_maxima_key H3).
  apply (coerce_column_keys _ _ _ _ _ coerce_threshold_key H2).
Qed.

Lemma row_info_shared m m' c r r' :
  row_key r = row_key r' ->
  shared_fields (row_info m c r) = shared_fields (row_info m' c r').
Proof.
  unfold row_key. intros H. injection H as H1 H2.
  destruct m, m'; unfold shared_fields; cbn; rewrite H1, H2; reflexivity.
Qed.

Lemma map_row_info_shared m m' c t t' :
  map row_key t = map row_key t' ->
  map shared_fields (map (row_info m c) t) = map shared_fields (map (row_info m' c) t').
Proof.
  revert t'. induction t as [|r t IH]; intros [|r' t'] H; try discriminate;
    cbn [map]; [reflexivity|].
  cbn [map] in H. apply cons_eq_inv in H. destruct H as [Hr Ht].
  f_equal; [apply row_info_shared; exact Hr|apply IH; exact Ht].
Qed.

(** ** Conditions are read one after the other *)

Lemma condition_records_acc m c acc :
  condition_records m c acc
  = Py.bind (condition_records m c []) (fun r => Ok (acc ++ r)).
Proof.
  unfold condition_records.
  destruct (sorted_table m (results_csv c)); reflexivity.
Qed.

Lemma extract_acc m cs : forall acc,
  Py.for_each (condition_records m) cs acc
  = Py.bind (Py.for_each (condition_records m) cs []) (fun r => Ok (acc ++ r)).
Proof.
  induction cs as [|c cs IH]; intros acc; cbn [Py.for_each Py.bind].
  - rewrite List.app_nil_r. reflexivity.
  - rewrite (condition_records_acc m c acc).
    destruct (condition_records m c []) as [r|e]; cbn [Py.bind]; [|reflexivity].
    rewrite (IH (acc ++ r)), (IH r).
    destruct (Py.for_each (condition_records m) cs []) as [r'|e]; cbn [Py.bind];
      [|reflexivity].
    rewrite app_assoc. reflexivity.
Qed.

Lemma row_info_title m c r : ROI_title (row_info m c r) = csv_root_folder c.
Proof. destruct m; reflexivity. Qed.

Lemma extract_titles m cs : forall acc recs,
  Py.for_each (condition_records m) cs acc = Ok recs ->
  map ROI_title recs
  = map ROI_title acc
    ++ flat_map (fun c => repeat (csv_root_folder c)
                            (List.length (rows (results_csv c)))) cs.
Proof.
  induction cs as [|c cs IH]; intros acc recs H; cbn [Py.for_each] in H.
  - injection H as <-. cbn. rewrite List.app_nil_r. reflexivity.
  - bind_inv H as acc1 H1. apply IH in H. rewrite H.
    apply condition_records_spec in H1. destruct H1 as (t & Ht & ->).
    apply sorted_table_spec in Ht. destruct Ht as (_ & Hlen & _).
    rewrite map_app, <- app_assoc. cbn [flat_map]. do 2 f_equal.
    rewrite <- Hlen. clear. induction t as [|r t IH]; cbn; [reflexivity|].
    rewrite row_info_title, IH. reflexivity.
Qed.

(** ** Which tables can be read *)

Lemma map_result_each {A B : Type} (f : A -> result B) xs ys :
  Py.map_result f xs = Ok ys -> Forall (fun x => exists y, f x = Ok y) xs.
Proof.
  intros H. apply map_result_Forall2 in H.
  induction H as [|x y xs ys Hx _ IH]; constructor; eauto.
Qed.

Lemma str_accessor_Ok column u : str_accessor column = Ok u -> column = Text_column.
Proof. destruct column; [discriminate..|reflexivity]. Qed.

(** The clean-up of the names leaves the count cells as they are. *)
Lemma clean_rows_columns rs t1 :
  Py.map_result clean_row rs = Ok t1 ->
  map fr_Particle_count_threshold t1 = map Particle_count_threshold rs
  /\ map fr_Particle_count_maxima t1 = map Particle_count_maxima rs.
Proof.
  intros H. apply map_result_Forall2 in H.
  induction H as [|r fr rs t1 Hr _ IH]; cbn [map]; [split; reflexivity|].
  destruct IH as [-> ->]. unfold clean_row in Hr. bind_inv Hr as n Hn.
  injection Hr as <-. split; reflexivity.
Qed.

Lemma clean_rows_names rs t1 :
  Py.map_result clean_row rs = Ok t1 ->
  Forall (fun r => exists n, Py.int (Py.replace (Cell_quantified r) "_1.roi" "") = Ok n)
    rs.
Proof.
  intros H. apply map_result_each in H. eapply Forall_impl; [|exact H].
  intros r (fr & Hr). unfold clean_row in Hr. bind_inv Hr as n Hn. eauto.
Qed.

(** The coercion of the threshold column leaves the maxima cells as they
    are. *)
Lemma coerce_threshold_maxima rs rs' :
  Py.map_result coerce_threshold rs = Ok rs' ->
  map fr_Particle_count_maxima rs' = map fr_Particle_count_maxima rs.
Proof.
  intros H. apply map_result_Forall2 in H.
  induction H as [|r r' rs rs' Hr _ IH]; cbn [map]; [reflexivity|].
  rewrite IH. unfold coerce_threshold in Hr. bind_inv Hr as z Hz.
  injection Hr as <-. reflexivity.
Qed.

(** A count column that has been coerced was there, and [int] accepted
    every cell of it. *)
Lemma coerce_column_used (present : bool) f (field : frame_row -> cell) rs rs' :
  (forall r r', f r = Ok r' -> exists z, int_cell (field r) = Ok z) ->
  coerce_column true present f rs = Ok rs' ->
  present = true /\ Forall (fun c => exists z, int_cell c = Ok z) (map field rs).
Proof.
  intros Hf. unfold coerce_column. destruct present; [|discriminate].
  intros H. split; [reflexivity|].
  apply map_result_each in H. apply Forall_map.
  eapply Forall_impl; [|exact H]. intros r (r' & Hr). eapply Hf. exact Hr.
Qed.

Lemma sorted_table_readable T_and_FM tbl t :
  sorted_table T_and_FM tbl = Ok t -> readable T_and_FM tbl.
Proof.
  unfold sorted_table, readable. intros H.
  bind_inv H as u1 Hu1. bind_inv H as u2 Hu2.
  bind_inv H as t1 H1. bind_inv H as t2 H2. bind_inv H as t3 H3.
  destruct (clean_rows_columns _ _ H1) as [HcT HcFM].
  split; [eapply str_accessor_Ok; exact Hu1|].
  split; [eapply str_accessor_Ok; exact Hu2|].
  split; [eapply clean_rows_names; exact H1|].
  split.
  - intros Hu. rewrite Hu in H2.
    apply (coerce_column_used _ _ fr_Particle_count_threshold) in H2.
    + destruct H2 as [Hp Hc]. split; [exact Hp|].
      rewrite HcT in Hc.
      exact (proj1 (Forall_map Particle_count_threshold
                      (fun c => exists z, int_cell c = Ok z) (rows tbl)) Hc).
    + intros r r' Hr. unfold coerce_threshold in Hr. bind_inv Hr as z Hz. eauto.
  - intros Hu. rewrite Hu in H3.
    assert (Hm : map fr_Particle_count_maxima t2 = map fr_Particle_count_maxima t1).
    { unfold coerce_column in H2. destruct (uses_T T_and_FM).
      - destruct (has_Particle_count_threshold tbl); [|discriminate].
        apply coerce_threshold_maxima. exact H2.
      - injection H2 as <-. reflexivity. }
    apply (coerce_column_used _ _ fr_Particle_count_maxima) in H3.
    + destruct H3 as [Hp Hc]. split; [exact Hp|].
      rewrite Hm, HcFM in Hc.
      exact (proj1 (Forall_map Particle_count_maxima
                      (fun c => exists z, int_cell c = Ok z) (rows tbl)) Hc).
    + intros r r' Hr. unfold coerce_maxima in Hr. bind_inv Hr as z Hz. eauto.
Qed.

Lemma extract_readable m cs : forall acc recs,
  Py.for_each (condition_records m) cs acc = Ok recs ->
  Forall (fun c => readable m (results_csv c)) cs.
Proof.
  induction cs as [|c cs IH]; intros acc recs H; [constructor|].
  cbn [Py.for_each] in H. bind_inv H as acc1 H1. constructor.
  - unfold condition_records in H1. bind_inv H1 as t Ht.
    eapply sorted_table_readable. exact Ht.
  - eapply IH. exact H.
Qed.

(** ** A column that the approach does not use *)

Lemma map_result_post {A B : Type} (f : A -> result B) (g : A -> A) (h : B -> B) xs :
  (forall x, f (g x) = Py.bind (f x) (fun y => Ok (h y))) ->
  Py.map_result f (map g xs)
  = Py.bind (Py.map_result f xs) (fun ys => Ok (map h ys)).
Proof.
  intros Hf. induction xs as [|x xs IH]; cbn [map Py.map_result Py.bind];
    [reflexivity|].
  rewrite Hf, IH.
  destruct (f x) as [y|e]; cbn [Py.bind]; [|reflexivity].
  destruct (Py.map_result f xs) as [ys|e]; reflexivity.
Qed.

Lemma sorted_table_without_maxima c :
  sorted_table Thresholding_only (results_csv (without_maxima c))
  = Py.bind (sorted_table Thresholding_only (results_csv c))
      (fun t => Ok (map drop_maxima t)).
Proof.
  unfold sorted_table, without_maxima.
  cbn [results_csv rows has_Particle_count_threshold has_Particle_count_maxima
       Image_used_column Cell_quantified_column uses_T uses_FM].
  destruct (str_accessor (Image_used_column (results_csv c))); cbn [Py.bind];
    [|reflexivity].
  destruct (str_accessor (Cell_quantified_column (results_csv c))); cbn [Py.bind];
    [|reflexivity].
  rewrite (map_result_post clean_row _ drop_maxima).
  - destruct (Py.map_result clean_row (rows (results_csv c))) as [t1|e];
      cbn [Py.bind]; [|reflexivity].
    unfold coerce_column.
    destruct (has_Particle_count_threshold (results_csv c)); [|reflexivity].
    rewrite (map_result_post coerce_threshold drop_maxima drop_maxima).
    + destruct (Py.map_result coerce_threshold t1) as [t2|e]; cbn [Py.bind];
        [|reflexivity].
      rewrite sort_values_map by reflexivity. reflexivity.
    + intros r. unfold coerce_threshold. cbn.
      destruct (int_cell (fr_Particle_count_threshold r)); reflexivity.
  - intros r. unfold clean_row.
    cbn [Image_used Cell_quantified Particle_count_threshold Particle_count_maxima].
    destruct (Py.int (Py.replace (Cell_quantified r) "_1.roi" "")); reflexivity.
Qed.

Lemma sorted_table_without_threshold c :
  sorted_table Find_Maxima_only (results_csv (without_threshold c))
  = Py.bind (sorted_table Find_Maxima_only (results_csv c))
      (fun t => Ok (map drop_threshold t)).
Proof.
  unfold sorted_table, without_threshold.
  cbn [results_csv rows has_Particle_count_threshold has_Particle_count_maxima
       Image_used_column Cell_quantified_column uses_T uses_FM].
  destruct (str_accessor (Image_used_column (results_csv c))); cbn [Py.bind];
    [|reflexivity].
  destruct (str_accessor (Cell_quantified_column (results_csv c))); cbn [Py.bind];
    [|reflexivity].
  rewrite (map_result_post clean_row _ drop_threshold).
  - destruct (Py.map_result clean_row (rows (results_csv c))) as [t1|e];
      cbn [Py.bind]; [|reflexivity].
    unfold coerce_column. cbn [Py.bind].
    destruct (has_Particle_count_maxima (results_csv c)); [|reflexivity].
    rewrite (map_result_post coerce_maxima drop_threshold drop_threshold).
    + destruct (Py.map_result coerce_maxima t1) as [t2|e]; cbn [Py.bind];
        [|reflexivity].
      rewrite sort_values_map by reflexivity. reflexivity.
    + intros r. unfold coerce_maxima. cbn.
      destruct (int_cell (fr_Particle_count_maxima r)); reflexivity.
  - intros r. unfold clean_row.
    cbn [Image_used Cell_quantified Particle_count_threshold Particle_count_maxima].
    destruct (Py.int (Py.replace (Cell_quantified r) "_1.roi" "")); reflexivity.
Qed.

Lemma condition_records_without_maxima c acc :
  condition_records Thresholding_only (without_maxima c) acc
  = condition_records Thresholding_only c acc.
Proof.
  unfold condition_records. rewrite sorted_table_without_maxima.
  destruct (sorted_table Thresholding_only (results_csv c)) as [t|e];
    cbn [Py.bind]; [|reflexivity].
  rewrite map_map. reflexivity.
Qed.

Lemma condition_records_without_threshold c acc :
  condition_records Find_Maxima_only (without_threshold c) acc
  = condition_records Find_Maxima_only c acc.
Proof.
  unfold condition_records. rewrite sorted_table_without_threshold.
  destruct (sorted_table Find_Maxima_only (results_csv c)) as [t|e];
    cbn [Py.bind]; [|reflexivity].
  rewrite map_map. reflexivity.
Qed.

Lemma for_each_map_ext {A S : Type} (body : A -> S -> result S) (g : A -> A) xs :
  (forall x s, body (g x) s = body x s) ->
  forall s, Py.for_each body (map g xs) s = Py.for_each body xs s.
Proof.
  intros Hg. induction xs as [|x xs IH]; intros s; cbn [map Py.for_each];
    [reflexivity|].
  rewrite Hg. destruct (body x s); cbn [Py.bind]; [apply IH|reflexivity].
Qed.

(** ** The grouping reads titles and subtitles only *)

Lemma shared_fields_titles i i' :
  shared_fields i = shared_fields i' ->
  ROI_title i = ROI_title i' /\ ROI_subtitle i = ROI_subtitle i'.
Proof. unfold shared_fields. intros H. injection H as -> -> _ _. split; reflexivity. Qed.

Lemma group_step_same_grouping g g' i i' :
  shared_fields i = shared_fields i' -> same_grouping g g' ->
  same_grouping (group_step g i) (group_step g' i').
Proof.
  intros Hi (Hall & Htemp & Ht & Hs).
  destruct (shared_fields_titles i i' Hi) as [Hti Hsi].
  assert (Hlen : List.length (temp_slide g) = List.length (temp_slide g')).
  { rewrite <- (length_map shared_fields (temp_slide g)), Htemp. apply length_map. }
  unfold group_step. rewrite Hlen, Hti, Hsi, Ht, Hs.
  destruct ((List.length (temp_slide g') =? 20)%nat
            || negb (String.eqb (ROI_title i') (current_title g'))
            || negb (String.eqb (ROI_subtitle i') (current_subtitle g')));
    unfold same_grouping; cbn [all_slides_content temp_slide current_title current_subtitle].
  - rewrite !map_app. cbn [map]. rewrite Hall, Htemp, Hi. repeat split.
  - rewrite !map_app. cbn [map]. rewrite Htemp, Hi. repeat split; assumption.
Qed.

Lemma fold_group_step_same_grouping l : forall l' g g',
  map shared_fields l = map shared_fields l' -> same_grouping g g' ->
  same_grouping (fold_left group_step l g) (fold_left group_step l' g').
Proof.
  induction l as [|i l IH]; intros [|i' l'] g g' Hl Hg; try discriminate;
    cbn [fold_left]; [exact Hg|].
  cbn [map] in Hl. apply cons_eq_inv in Hl. destruct Hl as [Hi Hl].
  apply IH; [exact Hl|]. apply group_step_same_grouping; assumption.
Qed.

Lemma group_slides_shared l l' slides slides' :
  map shared_fields l = map shared_fields l' ->
  group_slides l = Ok slides -> group_slides l' = Ok slides' ->
  map (map shared_fields) slides = map (map shared_fields) slides'.
Proof.
  intros Hl H H'.
  destruct l as [|i l], l' as [|i' l']; try discriminate.
  unfold group_slides in H, H'. rewrite group_loop_cons in H, H'.
  cbn [Py.bind] in H, H'. injection H as <-. injection H' as <-.
  cbn [map] in Hl. apply cons_eq_inv in Hl. destruct Hl as [Hi Hl].
  destruct (shared_fields_titles i i' Hi) as [Hti Hsi].
  apply (fold_group_step_same_grouping l l'); [exact Hl|].
  unfold same_grouping. cbn. rewrite Hi. repeat split; assumption.
Qed.

Lemma extract_shared m m' cs : forall acc acc' recs recs',
  map shared_fields acc = map shared_fields acc' ->
  Py.for_each (condition_records m) cs acc = Ok recs ->
  Py.for_each (condition_records m') cs acc' = Ok recs' ->
  map shared_fields recs = map shared_fields recs'.
Proof.
  induction cs as [|c cs IH]; intros acc acc' recs recs' Hacc H H';
    cbn [Py.for_each] in H, H'.
  - injection H as <-. injection H' as <-. exact Hacc.
  - bind_inv H as a1 H1. bind_inv H' as a1' H1'.
    apply (IH a1 a1' recs recs'); [|exact H|exact H'].
    apply condition_records_spec in H1, H1'.
    destruct H1 as (t & Ht & ->), H1' as (t' & Ht' & ->).
    apply sorted_table_keys in Ht, Ht'.
    destruct Ht as (t1 & H1 & Hk), Ht' as (t1' & H1' & Hk').
    assert (t1' = t1) by congruence. subst t1'.
    rewrite !map_app, Hacc. f_equal.
    apply map_row_info_shared. congruence.
Qed.

(** * Paths of the pictures *)

Section Paths.

Local Open Scope string_scope.

Lemma sapp_assoc (a b c : string) : (a ++ b) ++ c = a ++ (b ++ c).
Proof. induction a as [|x a IH]; cbn; [reflexivity|rewrite IH; reflexivity]. Qed.

Lemma sapp_nil_r (a : string) : a ++ "" = a.
Proof. induction a as [|x a IH]; cbn; [reflexivity|rewrite IH; reflexivity]. Qed.

Lemma occurs_in_app c a b : occurs_in c (a ++ b) = occurs_in c a || occurs_in c b.
Proof.
  induction a as [|x a IH]; cbn; [reflexivity|].
  rewrite IH, orb_assoc. reflexivity.
Qed.

(** ** Prefixes *)

Lemma prefix_nil w : String.prefix w "" = true -> w = "".
Proof. destruct w; [reflexivity|discriminate]. Qed.

Lemma prefix_refl_app w : forall b, String.prefix w (w ++ b) = true.
Proof.
  induction w as [|o w IH]; intros b; cbn; [destruct b; reflexivity|].
  destruct (ascii_dec o o); [apply IH|congruence].
Qed.

Lemma prefix_length w : forall a,
  String.prefix w a = true -> String.length w <= String.length a.
Proof.
  induction w as [|o w IH]; intros a H; cbn; [lia|].
  destruct a as [|x a]; [discriminate|]. cbn in H.
  destruct (ascii_dec o x); [|discriminate].
  apply IH in H. cbn. lia.
Qed.

Lemma prefix_app_l w v : forall s,
  String.prefix (w ++ v) s = true -> String.prefix w s = true.
Proof.
  induction w as [|o w IH]; intros s H; [destruct s; reflexivity|].
  destruct s as [|x s]; [discriminate|]. cbn in H |- *.
  destruct (ascii_dec o x); [apply IH; exact H|discriminate].
Qed.

(** A text without the character [c] is a prefix of [a ++ c ++ b] only
    within [a]. *)
Lemma prefix_sep c w : forall a b,
  occurs_in c w = false ->
  String.prefix w (a ++ String c b) = String.prefix w a.
Proof.
  induction w as [|o w IH]; intros a b Hc.
  - destruct a; reflexivity.
  - cbn in Hc. apply orb_false_iff in Hc. destruct Hc as [Hco Hc].
    destruct a as [|x a]; cbn.
    + destruct (ascii_dec o c) as [->|_]; [|reflexivity].
      rewrite Ascii.eqb_refl in Hco. discriminate.
    + destruct (ascii_dec o x); [apply IH; exact Hc|reflexivity].
Qed.

Lemma prefix_first_absent o w a b :
  occurs_in o a = false -> a <> "" ->
  String.prefix (String o w) (a ++ b) = false.
Proof.
  intros Ho Ha. destruct a as [|x a]; [congruence|]. cbn in Ho |- *.
  apply orb_false_iff in Ho. destruct Ho as [Hox _].
  destruct (ascii_dec o x) as [->|_]; [|reflexivity].
  rewrite Ascii.eqb_refl in Hox. discriminate.
Qed.

(** ** [replace] *)

Lemma replace_nonempty s o w new :
  Py.replace s (String o w) new = Py.replace_from (String o w) new 0 s.
Proof. reflexivity. Qed.

Lemma replace_from_cons old new x s :
  Py.replace_from old new 0 (String x s)
  = if String.prefix old (String x s)
    then new ++ Py.replace_from old new (String.length old - 1) s
    else String x (Py.replace_from old new 0 s).
Proof. reflexivity. Qed.

(** Characters to be passed over are passed over. *)
Lemma replace_from_skip old new t : forall b,
  Py.replace_from old new (String.length t) (t ++ b) = Py.replace_from old new 0 b.
Proof.
  induction t as [|x t IH]; intros b; cbn [String.length append Py.replace_from].
  - reflexivity.
  - apply IH.
Qed.

(** An occurrence alone is replaced. *)
Lemma replace_from_self o w new :
  Py.replace_from (String o w) new 0 (String o w) = new.
Proof.
  assert (Hp : String.prefix (String o w) (String o w) = true).
  { pose proof (prefix_refl_app (String o w) "") as H.
    rewrite sapp_nil_r in H. exact H. }
  cbn [Py.replace_from]. rewrite Hp.
  cbn [String.length].
  replace (S (String.length w) - 1) with (String.length w) by lia.
  pose proof (replace_from_skip (String o w) new w "") as H.
  rewrite sapp_nil_r in H. rewrite H. cbn. apply sapp_nil_r.
Qed.

(** Replacing in [a ++ c ++ b], when [old] does not have the character
    [c], is replacing in [a] and in [b]. *)
Lemma replace_from_sep c old new b :
  occurs_in c old = false -> old <> "" ->
  forall a k, k <= String.length a ->
  Py.replace_from old new k (a ++ String c b)
  = Py.replace_from old new k a ++ String c (Py.replace_from old new 0 b).
Proof.
  intros Hc Hold. induction a as [|x a IH]; intros k Hk.
  - cbn in Hk. assert (k = 0) by lia. subst k.
    cbn [append Py.replace_from].
    pose proof (prefix_sep c old "" b Hc) as Hp. cbn [append] in Hp. rewrite Hp.
    destruct old as [|o w]; [congruence|]. reflexivity.
  - destruct k as [|k]; cbn [append Py.replace_from].
    + pose proof (prefix_sep c old (String x a) b Hc) as Hp.
      cbn [append] in Hp. rewrite Hp.
      destruct (String.prefix old (String x a)) eqn:E.
      * apply prefix_length in E. cbn [String.length] in E.
        rewrite IH by lia. rewrite sapp_assoc. reflexivity.
      * rewrite IH by lia. reflexivity.
    + cbn [String.length] in Hk. apply IH. lia.
Qed.

Lemma replace_sep c o w new a b :
  occurs_in c (String o w) = false ->
  Py.replace (a ++ String c b) (String o w) new
  = Py.replace a (String o w) new ++ String c (Py.replace b (String o w) new).
Proof.
  intros Hc. rewrite !replace_nonempty.
  apply replace_from_sep; [exact Hc|discriminate|lia].
Qed.

(** Nothing is replaced in a text that does not contain [old]. *)
Lemma replace_absent o w new s :
  contains (String o w) s = false -> Py.replace s (String o w) new = s.
Proof.
  rewrite replace_nonempty. induction s as [|x s IH]; intros H; [reflexivity|].
  cbn [contains] in H. apply orb_false_iff in H. destruct H as [Hp Hs].
  cbn [Py.replace_from]. rewrite Hp, (IH Hs). reflexivity.
Qed.

(** Nothing is replaced before the first character of [old] appears. *)
Lemma replace_first_absent o w new a b :
  occurs_in o a = false ->
  Py.replace (a ++ b) (String o w) new = a ++ Py.replace b (String o w) new.
Proof.
  rewrite !replace_nonempty. induction a as [|x a IH]; intros H; [reflexivity|].
  cbn [append Py.replace_from].
  assert (Hp : String.prefix (String o w) (String x (a ++ b)) = false)
    by (apply (prefix_first_absent o w (String x a) b H); discriminate).
  rewrite Hp. cbn in H. apply orb_false_iff in H. destruct H as [_ H].
  rewrite (IH H). reflexivity.
Qed.

(** A file name [old] that begins with the word [w], at the end of a
    path, after the separator [c] that [w] does not have and a directory
    that does not contain [w]. *)
Lemma replace_last_component c w old new a :
  old <> "" -> w <> "" ->
  (forall s, String.prefix old s = true -> String.prefix w s = true) ->
  occurs_in c w = false -> contains w a = false ->
  Py.replace (a ++ String c old) old new = a ++ String c new.
Proof.
  intros Hold Hw Hpre Hc.
  destruct old as [|o old']; [congruence|]. rewrite replace_nonempty.
  assert (Hno : forall a', String.prefix (String o old') (a' ++ String c (String o old')) = true ->
                           String.prefix w a' = true).
  { intros a' H. apply Hpre in H. rewrite prefix_sep in H by exact Hc. exact H. }
  induction a as [|x a IH]; intros Ha.
  - cbn [append]. rewrite replace_from_cons.
    destruct (String.prefix (String o old') (String c (String o old'))) eqn:E.
    + apply (Hno "") in E. apply prefix_nil in E. congruence.
    + rewrite replace_from_self. reflexivity.
  - cbn [contains] in Ha. apply orb_false_iff in Ha. destruct Ha as [Hp Ha].
    cbn [append]. rewrite replace_from_cons.
    destruct (String.prefix (String o old')
                (String x (a ++ String c (String o old')))) eqn:E.
    + apply (Hno (String x a)) in E. congruence.
    + rewrite (IH Ha). reflexivity.
Qed.

(** ** The decimal text of a number *)

Lemma occurs_in_decimal_text c d :
  occurs_in c (decimal_text d) = true -> Py.isdigit c = true.
Proof.
  induction d; cbn [decimal_text DecimalString.NilEmpty.string_of_uint occurs_in];
    try discriminate;
    (intros H; apply orb_true_iff in H; destruct H as [H|H];
     [apply Ascii.eqb_eq in H; subst c; reflexivity|apply IHd; exact H]).
Qed.

Lemma occurs_in_str c z :
  occurs_in c (Py.str z) = true -> Py.isdigit c = true \/ c = "-"%char.
Proof.
  unfold Py.str. destruct z as [|p|p]; cbn [Z.to_int DecimalString.NilZero.string_of_int].
  - cbn. rewrite orb_false_r. intros H. apply Ascii.eqb_eq in H. subst c.
    left. reflexivity.
  - intros H. left. apply (occurs_in_decimal_text c (Pos.to_uint p)).
    destruct (Pos.to_uint p) eqn:E; try exact H.
    exfalso. revert E. apply DecimalPos.Unsigned.to_uint_nonnil.
  - cbn [occurs_in]. intros H. apply orb_true_iff in H. destruct H as [H|H].
    + right. apply Ascii.eqb_eq in H. exact H.
    + left. apply (occurs_in_decimal_text c (Pos.to_uint p)).
      destruct (Pos.to_uint p) eqn:E; try exact H.
      exfalso. revert E. apply DecimalPos.Unsigned.to_uint_nonnil.
Qed.

(** The characters ["/"], ["F"] and ["_"] are not in it. *)
Lemma str_has_no c z :
  Py.isdigit c = false -> c <> "-"%char -> occurs_in c (Py.str z) = false.
Proof.
  intros Hd Hm. destruct (occurs_in c (Py.str z)) eqn:E; [|reflexivity].
  apply occurs_in_str in E. destruct E; congruence.
Qed.

Lemma str_nonempty z : Py.str z <> "".
Proof.
  unfold Py.str. destruct z as [|p|p]; cbn; try discriminate.
  destruct (Pos.to_uint p); discriminate.
Qed.

(** ** [os.path.join] *)

Lemma endswith_occurs c s :
  Py.endswith s (String c "") = true -> occurs_in c s = true.
Proof.
  induction s as [|x s IH]; [discriminate|].
  cbn [Py.endswith String.length occurs_in].
  destruct (Nat.eqb_spec (S (String.length s)) 1) as [E|E].
  - destruct s; [|discriminate]. cbn.
    destruct (Ascii.eqb_spec x c) as [->|]; [|discriminate].
    rewrite Ascii.eqb_refl. reflexivity.
  - intros H. rewrite (IH H). apply orb_true_r.
Qed.

Lemma endswith_app c a s :
  s <> "" -> occurs_in c s = false -> Py.endswith (a ++ s) (String c "") = false.
Proof.
  intros Hs Hc. induction a as [|x a IH]; cbn [append].
  - destruct (Py.endswith s (String c "")) eqn:E; [|reflexivity].
    apply endswith_occurs in E. congruence.
  - cbn [Py.endswith String.length].
    destruct (Nat.eqb_spec (S (String.length (a ++ s))) 1) as [E|E]; [|exact IH].
    destruct a; destruct s; cbn in E; try congruence; discriminate.
Qed.

Lemma prefix_char_occurs c s :
  String.prefix (String c "") s = true -> occurs_in c s = true.
Proof.
  destruct s as [|x s]; [discriminate|]. cbn.
  destruct (ascii_dec c x) as [->|]; [|discriminate].
  rewrite Ascii.eqb_refl. reflexivity.
Qed.

(** The folder of a picture, for an image name that is a single path
    component. *)
Lemma join_picture_path folder sub name :
  folder = "Fluorescence" ->
  sub <> "" -> occurs_in "/" sub = false ->
  name <> "" -> occurs_in "/" name = false ->
  Py.join "Cropped cells" [folder; sub; name]
  = "Cropped cells/Fluorescence/" ++ sub ++ "/" ++ name.
Proof.
  intros -> Hsub Hsub' Hname Hname'.
  unfold Py.join. cbn [fold_left].
  change (Py.join2 "Cropped cells" "Fluorescence") with "Cropped cells/Fluorescence".
  assert (H1 : Py.join2 "Cropped cells/Fluorescence" sub
               = "Cropped cells/Fluorescence/" ++ sub).
  { unfold Py.join2, Py.sep.
    destruct (String.prefix "/" sub) eqn:E.
    - apply prefix_char_occurs in E. congruence.
    - reflexivity. }
  rewrite H1. unfold Py.join2, Py.sep.
  destruct (String.prefix "/" name) eqn:E.
  { apply prefix_char_occurs in E. congruence. }
  assert (H2 : ("Cropped cells/Fluorescence/" ++ sub =? "") = false) by reflexivity.
  rewrite H2, (endswith_app "/" "Cropped cells/Fluorescence/" sub Hsub Hsub').
  cbn [orb]. rewrite sapp_assoc. reflexivity.
Qed.

(** ** The three picture paths of an entry *)

(** The fluorescence picture: the csv path with its last two components
    replaced. *)
Lemma fluorescence_path dir sub z :
  contains "Quantification" dir = false ->
  sub <> "" -> occurs_in "/" sub = false ->
  Py.replace (dir ++ "/Quantification/Results.csv")
    (Py.join "Quantification" ["Results.csv"])
    (Py.join "Cropped cells" ["Fluorescence"; sub; Py.str z ++ "_2.jpg"])
  = dir ++ "/Cropped cells/Fluorescence/" ++ sub ++ "/" ++ Py.str z ++ "_2.jpg".
Proof.
  intros Hdir Hsub Hsub'.
  change (Py.join "Quantification" ["Results.csv"]) with "Quantification/Results.csv".
  change (dir ++ "/Quantification/Results.csv")
    with (dir ++ String "/" "Quantification/Results.csv").
  rewrite (replace_last_component "/" "Quantification" "Quantification/Results.csv");
    [|discriminate|discriminate
     |apply (prefix_app_l "Quantification" "/Results.csv")|reflexivity|exact Hdir].
  rewrite join_picture_path; [reflexivity|reflexivity|exact Hsub|exact Hsub'| |].
  - intros E. destruct (Py.str z) eqn:Es; [|discriminate].
    exact (str_nonempty z Es).
  - rewrite occurs_in_app, str_has_no; [reflexivity|reflexivity|discriminate].
Qed.

(** The particle picture of an approach: the same path in the folder of the
    approach, with the file suffix ["_1.jpg"]. *)
Lemma particles_path folder dir sub z :
  contains "Fluorescence" dir = false -> contains "_2.jpg" dir = false ->
  contains "Fluorescence" sub = false -> contains "_2.jpg" sub = false ->
  contains "_2.jpg" folder = false ->
  Py.replace
    (Py.replace (dir ++ "/Cropped cells/Fluorescence/" ++ sub ++ "/" ++ Py.str z ++ "_2.jpg")
       "Fluorescence" folder)
    "_2.jpg" "_1.jpg"
  = dir ++ "/Cropped cells/" ++ folder ++ "/" ++ sub ++ "/" ++ Py.str z ++ "_1.jpg".
Proof.
  intros HdF Hd2 HsF Hs2 Hf2.
  change (dir ++ "/Cropped cells/Fluorescence/" ++ sub ++ "/" ++ Py.str z ++ "_2.jpg")
    with (dir ++ String "/" ("Cropped cells" ++ String "/" ("Fluorescence"
            ++ String "/" (sub ++ String "/" (Py.str z ++ "_2.jpg"))))).
  rewrite !(replace_sep "/" "F" "luorescence") by reflexivity.
  rewrite (replace_absent "F" "luorescence" folder dir HdF).
  rewrite (replace_absent "F" "luorescence" folder sub HsF).
  rewrite (replace_first_absent "F" "luorescence" folder (Py.str z) "_2.jpg")
    by (apply str_has_no; [reflexivity|discriminate]).
  change (Py.replace "Cropped cells" "Fluorescence" folder) with "Cropped cells".
  change (Py.replace "_2.jpg" "Fluorescence" folder) with "_2.jpg".
  rewrite (replace_nonempty "Fluorescence" "F" "luorescence" folder), replace_from_self.
  rewrite !(replace_sep "/" "_" "2.jpg") by reflexivity.
  rewrite (replace_absent "_" "2.jpg" "_1.jpg" dir Hd2).
  rewrite (replace_absent "_" "2.jpg" "_1.jpg" sub Hs2).
  rewrite (replace_absent "_" "2.jpg" "_1.jpg" folder Hf2).
  rewrite (replace_first_absent "_" "2.jpg" "_1.jpg" (Py.str z) "_2.jpg")
    by (apply str_has_no; [reflexivity|discriminate]).
  reflexivity.
Qed.

End Paths.
(** * From the csv files to the conditions *)

Section Discovery.

Local Open Scope string_scope.

Lemma split_from_cons sep x s :
  Path.split_from sep 0 (String x s)
  = if String.prefix sep (String x s)
    then let (p, ps) := Path.split_from sep (String.length sep - 1) s in ("", p :: ps)
    else let (p, ps) := Path.split_from sep 0 s in (String x p, ps).
Proof. reflexivity. Qed.

Lemma split_from_skip sep t : forall b,
  Path.split_from sep (String.length t) (t ++ b) = Path.split_from sep 0 b.
Proof.
  induction t as [|x t IH]; intros b; cbn [String.length append Path.split_from].
  - reflexivity.
  - apply IH.
Qed.

(** The pieces of [a ++ sep ++ b] when no occurrence of [sep] starts within
    [a]: [a], then the pieces of [b]. *)
Lemma split_from_first o w a b :
  starts_in (String o w) a (String o w ++ b) = false ->
  Path.split_from (String o w) 0 (a ++ String o w ++ b)
  = (a, fst (Path.split_from (String o w) 0 b)
        :: snd (Path.split_from (String o w) 0 b)).
Proof.
  induction a as [|x a IH]; intros H.
  - cbn [append]. rewrite split_from_cons.
    pose proof (prefix_refl_app (String o w) b) as Hp. cbn [append] in Hp.
    rewrite Hp. cbn [String.length].
    replace (S (String.length w) - 1) with (String.length w) by lia.
    rewrite split_from_skip.
    destruct (Path.split_from (String o w) 0 b). reflexivity.
  - cbn [starts_in] in H. apply orb_false_iff in H. destruct H as [Hp H].
    change (String x a ++ String o w ++ b)
      with (String x (a ++ String o w ++ b)) in Hp |- *.
    rewrite split_from_cons, Hp, (IH H). reflexivity.
Qed.

(** A text without the separator is its own single piece; with the
    separator, there are at least two pieces. *)
Lemma split_from_absent o w s :
  contains (String o w) s = false -> Path.split_from (String o w) 0 s = (s, []).
Proof.
  induction s as [|x s IH]; intros H; [reflexivity|].
  cbn [contains] in H. apply orb_false_iff in H. destruct H as [Hp H].
  rewrite split_from_cons, Hp, (IH H). reflexivity.
Qed.

Lemma split_from_present o w s :
  contains (String o w) s = true -> snd (Path.split_from (String o w) 0 s) <> [].
Proof.
  induction s as [|x s IH]; intros H; [discriminate|].
  cbn [contains] in H. rewrite split_from_cons.
  destruct (String.prefix (String o w) (String x s)).
  - destruct (Path.split_from (String o w) (String.length (String o w) - 1) s).
    discriminate.
  - cbn [orb] in H. specialize (IH H).
    destruct (Path.split_from (String o w) 0 s). exact IH.
Qed.

Lemma prefix_extend w : forall a b,
  String.prefix w a = true -> String.prefix w (a ++ b) = true.
Proof.
  induction w as [|o w IH]; intros a b H; [destruct (a ++ b); reflexivity|].
  destruct a as [|x a]; [discriminate|]. cbn in H |- *.
  destruct (ascii_dec o x); [apply IH; exact H|discriminate].
Qed.

(** The first piece is the beginning of the text and does not contain the
    separator. *)
Lemma split_from_first_piece o w s :
  (exists r, s = fst (Path.split_from (String o w) 0 s) ++ r)
  /\ contains (String o w) (fst (Path.split_from (String o w) 0 s)) = false.
Proof.
  induction s as [|x s IH]; [split; [exists ""; reflexivity|reflexivity]|].
  rewrite split_from_cons.
  destruct (String.prefix (String o w) (String x s)) eqn:E.
  - destruct (Path.split_from (String o w) (String.length (String o w) - 1) s).
    split; [exists (String x s); reflexivity|reflexivity].
  - destruct IH as [(r & Hr) Hc].
    destruct (Path.split_from (String o w) 0 s) as [p ps]. cbn [fst] in *.
    split; [exists r; cbn [append]; rewrite <- Hr; reflexivity|].
    cbn [contains]. rewrite Hc, orb_false_r.
    destruct (String.prefix (String o w) (String x p)) eqn:Ep; [|reflexivity].
    apply (prefix_extend _ _ r) in Ep. cbn [append] in Ep. rewrite <- Hr in Ep.
    congruence.
Qed.

(** ** The folder of a condition *)

Lemma root_folder_of_Ok csv_file :
  contains "/Data/" (Path.normpath csv_file) = true ->
  exists folder, root_folder_of csv_file = Ok folder.
Proof.
  intros H. unfold root_folder_of, Path.split.
  apply split_from_present in H.
  destruct (Path.split_from "/Data/" 0 (Path.normpath csv_file)) as [p ps].
  cbn [snd] in H. destruct ps as [|after ps]; [congruence|].
  cbn [Py.bind Py.index nth_error].
  destruct (Path.split_from "/Quantification" 0 after) as [q qs].
  cbn [Py.bind Py.index nth_error]. eauto.
Qed.

Lemma root_folder_of_Raise csv_file e :
  root_folder_of csv_file = Raise e ->
  e = IndexError /\ contains "/Data/" (Path.normpath csv_file) = false.
Proof.
  intros H.
  destruct (contains "/Data/" (Path.normpath csv_file)) eqn:E.
  - apply root_folder_of_Ok in E. destruct E as (folder & E). congruence.
  - split; [|reflexivity].
    unfold root_folder_of, Path.split in H.
    rewrite (split_from_absent "/" "Data/" _ E) in H.
    cbn in H. congruence.
Qed.

Lemma conditions_of_spec read_csv files : forall acc conds,
  Py.for_each
    (fun csv_file exp_conditions_info =>
       folder <- root_folder_of csv_file ;;
       Ok (exp_conditions_info
             ++ [{| csv_root_folder := folder;
                    csv_file := csv_file;
                    results_csv := read_csv csv_file |}])%list)
    files acc = Ok conds ->
  exists new, conds = (acc ++ new)%list
    /\ Forall2 (fun f c => root_folder_of f = Ok (csv_root_folder c)
                           /\ csv_file c = f /\ results_csv c = read_csv f)
         files new.
Proof.
  induction files as [|f files IH]; intros acc conds H; cbn [Py.for_each] in H.
  - injection H as <-. exists []. rewrite List.app_nil_r.
    split; [reflexivity|constructor].
  - bind_inv H as acc1 H1. bind_inv H1 as folder Hf. injection H1 as <-.
    apply IH in H. destruct H as (new & -> & Hall).
    eexists. rewrite <- app_assoc. split; [reflexivity|].
    constructor; [|exact Hall]. cbn. repeat split. exact Hf.
Qed.

End Discovery.
(** * The grouping into slides, as returned by [process_files] *)

(** C1. 23 entries of one image: the function returns one slide, the first
    20 entries; the 3 entries collected after it are still in [temp_slide]
    when the function returns.  20 entries of one image: the function
    returns no slide at all.  (The text shown by [load_third_page] describes
    one slide for exactly 20 or fewer entries and a further slide for what
    exceeds 20.) *)
Theorem last_slide_not_returned :
  group_slides (same_group "CondA" "Row_01" 23) = Ok [same_group "CondA" "Row_01" 20]
  /\ group_slides (same_group "CondA" "Row_01" 20) = Ok [].
Proof. split; vm_compute; reflexivity. Qed.

(** C2. A single entry gives no slide, and of the three entries of two
    images only the first two are in the slides returned: the slides do not
    cover [all_info_for_slides]. *)
Theorem slides_miss_last_entries :
  group_slides [sample_info "A" "x" 1] = Ok []
  /\ group_slides three_entries = Ok [[sample_info "A" "x" 1; sample_info "A" "x" 2]]
  /\ (forall slides, group_slides three_entries = Ok slides ->
        List.concat slides <> three_entries).
Proof.
  split; [vm_compute; reflexivity|].
  split; [vm_compute; reflexivity|].
  intros slides H.
  destruct (group_slides_cover three_entries) as (slides' & rest & H' & Hrest & Hcov);
    [discriminate|].
  rewrite H in H'. injection H' as <-.
  intros E. rewrite E in Hcov.
  apply Hrest. apply (app_inv_head three_entries). rewrite List.app_nil_r. exact Hcov.
Qed.

(** C3. Five entries of image [A] followed by three of image [B] of the
    same condition: the function returns a single slide, the five entries
    of [A]; the change of subtitle stores the slide of [A], and the three
    entries of [B] are not returned. *)
Theorem subtitle_change_returns_first_slide_only :
  group_slides (same_group "CondA" "A" 5 ++ same_group "CondA" "B" 3)
  = Ok [same_group "CondA" "A" 5].
Proof. vm_compute. reflexivity. Qed.

(** C4. On a non-empty list the grouping returns slides, and every slide
    returned holds between 1 and 20 entries. *)
Theorem slide_sizes_within_capacity (all_info_for_slides : list info) :
  all_info_for_slides <> [] ->
  exists slides, group_slides all_info_for_slides = Ok slides
    /\ Forall (fun p => 1 <= List.length p <= 20) slides.
Proof.
  intros Hl. destruct (group_loop_inv _ Hl) as (g & Hg & Hinv).
  exists (all_slides_content g). unfold group_slides. rewrite Hg.
  split; [reflexivity|apply Hinv].
Qed.

Lemma slide_sizes_within_capacity_witness :
  same_group "CondA" "Row_01" 45 <> []
  /\ exists slides, group_slides (same_group "CondA" "Row_01" 45) = Ok slides
       /\ Forall (fun p => 1 <= List.length p <= 20) slides.
Proof.
  split; [discriminate|].
  apply (slide_sizes_within_capacity (same_group "CondA" "Row_01" 45)).
  discriminate.
Defined.

(** C5. On a non-empty list the grouping returns slides, and within every
    slide returned all entries have the same title and the same subtitle. *)
Theorem slides_are_homogeneous (all_info_for_slides : list info) :
  all_info_for_slides <> [] ->
  exists slides, group_slides all_info_for_slides = Ok slides
    /\ Forall homogeneous slides.
Proof.
  intros Hl. destruct (group_loop_inv _ Hl) as (g & Hg & Hinv).
  exists (all_slides_content g). unfold group_slides. rewrite Hg.
  split; [reflexivity|apply Hinv].
Qed.

Lemma slides_are_homogeneous_witness :
  same_group "CondA" "A" 25 ++ same_group "CondA" "B" 3 ++ same_group "CondB" "B" 2 <> []
  /\ exists slides,
       group_slides (same_group "CondA" "A" 25 ++ same_group "CondA" "B" 3
                       ++ same_group "CondB" "B" 2) = Ok slides
       /\ Forall homogeneous slides.
Proof.
  split; [discriminate|].
  apply (slides_are_homogeneous
           (same_group "CondA" "A" 25 ++ same_group "CondA" "B" 3
              ++ same_group "CondB" "B" 2)).
  discriminate.
Defined.

(** * The extraction *)

(** C6. The entries that one condition adds to [all_info_for_slides] are
    in ascending order of (subtitle, ROI number), the ROI names being
    compared as the integers they denote; there is one entry per line of
    the table. *)
Theorem records_sorted_by_image_then_cell T_and_FM condition_info acc recs :
  condition_records T_and_FM condition_info acc = Ok recs ->
  exists new, recs = acc ++ new
    /\ StronglySorted info_le new
    /\ List.length new = List.length (rows (results_csv condition_info)).
Proof.
  intros H. apply condition_records_spec in H. destruct H as (t & Ht & ->).
  apply sorted_table_spec in Ht. destruct Ht as (Hs & Hlen & _).
  eexists. split; [reflexivity|]. split.
  - eapply StronglySorted_map; [|exact Hs]. apply row_info_le.
  - rewrite length_map. exact Hlen.
Qed.

Lemma records_sorted_by_image_then_cell_witness :
  condition_records Both sample_condition []
  = Ok (map (row_info Both sample_condition)
          [ {| fr_Image_used := "Row_00"; fr_Cell_quantified := 2;
               fr_Particle_count_threshold := CInt 1;
               fr_Particle_count_maxima := CInt 0 |};
            {| fr_Image_used := "Row_01"; fr_Cell_quantified := 9;
               fr_Particle_count_threshold := CInt 3;
               fr_Particle_count_maxima := CInt 12 |};
            {| fr_Image_used := "Row_01"; fr_Cell_quantified := 10;
               fr_Particle_count_threshold := CInt 4;
               fr_Particle_count_maxima := CInt 7 |} ])
  /\ exists new,
       map (row_info Both sample_condition)
          [ {| fr_Image_used := "Row_00"; fr_Cell_quantified := 2;
               fr_Particle_count_threshold := CInt 1;
               fr_Particle_count_maxima := CInt 0 |};
            {| fr_Image_used := "Row_01"; fr_Cell_quantified := 9;
               fr_Particle_count_threshold := CInt 3;
               fr_Particle_count_maxima := CInt 12 |};
            {| fr_Image_used := "Row_01"; fr_Cell_quantified := 10;
               fr_Particle_count_threshold := CInt 4;
               fr_Particle_count_maxima := CInt 7 |} ] = [] ++ new
       /\ StronglySorted info_le new
       /\ List.length new = List.length (rows (results_csv sample_condition)).
Proof.
  split; [vm_compute; reflexivity|].
  apply (records_sorted_by_image_then_cell Both sample_condition []).
  vm_compute. reflexivity.
Defined.

(** The cells ["10_1.roi"] and ["9_1.roi"] of one image come out as ROI 9
    and then ROI 10, although as texts ["10"] is below ["9"]. *)
Example nine_before_ten :
  (recs <- condition_records Both sample_condition [] ;;
   Ok (map (fun i => (ROI_subtitle i, ROI_name i)) recs))
  = Ok [("Row_00", "2"); ("Row_01", "9"); ("Row_01", "10")]
  /\ text_lt "10" "9".
Proof. split; reflexivity. Qed.

(** C8. For a condition whose folder is named [Fluorescence_A] the
    extraction gives the fluorescence picture under the folder of the
    condition, but the Thresholding picture under a folder [T_Particles_A]:
    the replacement that [process_files] applies is that of every
    occurrence of ["Fluorescence"] in the whole path, not of the path
    segment.  Substituting the segment and the ending, as the specification says,
    gives the picture in the folder [T_Particles] of the condition, where
    the instructions shown by [load_second_page] place it.  With the
    pictures in place as instructed, the run stops with
    [FileNotFoundError] at the first Thresholding picture. *)
Theorem mask_leaves_the_condition_folder :
  process_files Thresholding_only [condition_Fluorescence_A]
  = Ok [[ {| ROI_title := "Fluorescence_A"; ROI_subtitle := "Row_01";
             ROI_Fluorescence_image :=
               "/app/Data/Fluorescence_A/Cropped cells/Fluorescence/Row_01/9_2.jpg";
             ROI_name := "9";
             ROI_Tcount_image :=
               Some "/app/Data/T_Particles_A/Cropped cells/T_Particles/Row_01/9_1.jpg";
             ROI_Tcount := Some (CInt 3);
             ROI_FMcount_image := None; ROI_FMcount := None |} ]]
  /\ mask_as_claimed "T_Particles"
       "/app/Data/Fluorescence_A/Cropped cells/Fluorescence/Row_01/9_2.jpg"
     = "/app/Data/Fluorescence_A/Cropped cells/T_Particles/Row_01/9_1.jpg"
  /\ run disk_Fluorescence_A [] Thresholding_only [condition_Fluorescence_A]
     = Raise FileNotFoundError.
Proof. split; [|split]; vm_compute; reflexivity. Qed.

(** * The slides *)

(** C7. Whenever a slide is made for a group of entries of a run, the
    approach of the slide is one that the run uses, and on the slide the
    count label of every entry reads ["P="] followed by the decimal text of
    the entry's integer count.  No slide, hence no label, is made from
    entries whose count is absent: their picture is absent too, and
    [add_picture] stops the call before the label.  In a run that completes,
    the presentation of an approach that is not used is not written, and
    the presentation of an approach that is used has one such slide per
    element of [all_slides_content]. *)
Theorem count_labels_of_a_run files template T_and_FM exp_conditions_info
    slides_content :
  process_files T_and_FM exp_conditions_info = Ok slides_content ->
  (forall c pres pres', In c slides_content ->
     (add_slide_for files ROI_Tcount_image ROI_Tcount c pres = Ok pres' ->
      uses_T T_and_FM = true
      /\ exists sl, pres' = pres ++ [sl] /\ count_labels ROI_Tcount c sl)
     /\ (add_slide_for files ROI_FMcount_image ROI_FMcount c pres = Ok pres' ->
         uses_FM T_and_FM = true
         /\ exists sl, pres' = pres ++ [sl] /\ count_labels ROI_FMcount c sl))
  /\ (forall out,
        run files template T_and_FM exp_conditions_info = Ok out ->
        deck_labels (uses_T T_and_FM) ROI_Tcount template slides_content
          (Summary_results_T out)
        /\ deck_labels (uses_FM T_and_FM) ROI_FMcount template slides_content
             (Summary_results_FM out)).
Proof.
  intros Hp.
  assert (Hshape : forall c r, In c slides_content -> In r c ->
                               well_shaped T_and_FM r).
  { unfold process_files in Hp.
    apply bind_Ok in Hp. destruct Hp as (recs & Hrecs & Hg).
    pose proof (extract_records_well_shaped _ _ _ Hrecs) as Hall.
    rewrite Forall_forall in Hall.
    intros c r Hc Hr. apply Hall. exact (group_slides_In _ _ _ _ Hg Hc Hr). }
  split.
  - intros c pres pres' Hc. split; intros H.
    + apply (slide_of_approach files (uses_T T_and_FM) "T_Particles") in H;
        [exact H|].
      intros r Hr. apply (Hshape c r Hc Hr).
    + apply (slide_of_approach files (uses_FM T_and_FM) "FM_Particles") in H;
        [exact H|].
      intros r Hr. apply (Hshape c r Hc Hr).
  - intros out H. unfold run in H. rewrite Hp in H. cbn [Py.bind] in H.
    unfold generate_pptxs in H.
    bind_inv H as pT HT.
    bind_inv H as pFM HFM.
    injection H as <-. cbn [Summary_results_T Summary_results_FM].
    split.
    + apply (deck_of_approach _ files ROI_Tcount_image); [exact HT|].
      intros c r Hused Hc Hr.
      destruct (Hshape c r Hc Hr) as (HfT & _).
      unfold approach_fields in HfT. rewrite Hused in HfT. apply HfT.
    + apply (deck_of_approach _ files ROI_FMcount_image); [exact HFM|].
      intros c r Hused Hc Hr.
      destruct (Hshape c r Hc Hr) as (_ & HfFM & _).
      unfold approach_fields in HfFM. rewrite Hused in HfFM. apply HfFM.
Qed.

Lemma count_labels_of_a_run_witness :
  exists slides_content out,
    process_files Thresholding_only [sample_condition] = Ok slides_content
    /\ run sample_disk [] Thresholding_only [sample_condition] = Ok out
    /\ (forall c pres pres', In c slides_content ->
          (add_slide_for sample_disk ROI_Tcount_image ROI_Tcount c pres = Ok pres' ->
           uses_T Thresholding_only = true
           /\ exists sl, pres' = pres ++ [sl] /\ count_labels ROI_Tcount c sl)
          /\ (add_slide_for sample_disk ROI_FMcount_image ROI_FMcount c pres = Ok pres' ->
              uses_FM Thresholding_only = true
              /\ exists sl, pres' = pres ++ [sl] /\ count_labels ROI_FMcount c sl))
    /\ deck_labels (uses_T Thresholding_only) ROI_Tcount [] slides_content
         (Summary_results_T out)
    /\ deck_labels (uses_FM Thresholding_only) ROI_FMcount [] slides_content
         (Summary_results_FM out).
Proof.
  assert (Hp : process_files Thresholding_only [sample_condition]
               = Ok match process_files Thresholding_only [sample_condition] with
                    | Ok slides => slides
                    | Raise _ => []
                    end) by (vm_compute; reflexivity).
  destruct (count_labels_of_a_run sample_disk [] Thresholding_only [sample_condition]
              _ Hp) as [Hslide Hrun].
  eexists _, _. split; [exact Hp|].
  split; [vm_compute; reflexivity|].
  split; [exact Hslide|].
  apply Hrun. vm_compute. reflexivity.
Defined.

(** The presentations of this run: one slide, for the cell of image
    [Row_00], whose Thresholding count is 1; no Find Maxima
    presentation. *)
Example label_of_a_sample_run :
  (out <- run sample_disk [] Thresholding_only [sample_condition] ;;
   Ok (Summary_results_T out, Summary_results_FM out))
  = Ok (Some [[ Textbox (Cm 0) (Cm 0) (Cm 1700) (Cm 150) "CondA" true (Pt 320) font;
                Textbox (Cm 1700) (Cm 0) (Cm 1700) (Cm 150) "Row_00" false (Pt 320) font;
                Picture (Some "/app/Data/CondA/Cropped cells/Fluorescence/Row_00/2_2.jpg")
                  (Cm 25) (Cm 210) (Cm 325) (Cm 300) None;
                Textbox (Cm 25) (Cm 510) (Cm 325) (Cm 100) "2" false (Pt 200) font;
                Picture (Some "/app/Data/CondA/Cropped cells/T_Particles/Row_00/2_1.jpg")
                  (Cm 350) (Cm 210) (Cm 325) (Cm 300) (Some (Pt 5));
                Textbox (Cm 350) (Cm 510) (Cm 325) (Cm 100) "P=1" false (Pt 200) font ]],
        None).
Proof. vm_compute. reflexivity. Qed.

(** C9. When slides are made for two groups of the same number of
    entries, the two slides have the same positions and sizes, shape by
    shape, whatever the entries, the approach, the picture files and the
    presentations they are appended to. *)
Theorem geometry_depends_on_size_only
    (files1 files2 : disk)
    (image_of1 image_of2 : info -> option string)
    (count_of1 count_of2 : info -> option cell)
    (content1 content2 : list info) (pres1 pres2 pres1' pres2' : presentation) :
  List.length content1 = List.length content2 ->
  add_slide_for files1 image_of1 count_of1 content1 pres1 = Ok pres1' ->
  add_slide_for files2 image_of2 count_of2 content2 pres2 = Ok pres2' ->
  exists sl1 sl2,
    pres1' = pres1 ++ [sl1] /\ pres2' = pres2 ++ [sl2]
    /\ map geometry sl1 = map geometry sl2.
Proof.
  intros Hlen H1 H2. unfold add_slide_for in H1, H2.
  bind_inv H1 as first1 Hf1. bind_inv H2 as first2 Hf2.
  pose proof (slide_maker_geometry _ _ _ _ _ _ _ _ _ _ H1) as G1.
  pose proof (slide_maker_geometry _ _ _ _ _ _ _ _ _ _ H2) as G2.
  apply slide_maker_append in H1, H2.
  destruct H1 as (sl1 & -> & _), H2 as (sl2 & -> & _).
  rewrite last_last in G1, G2.
  exists sl1, sl2. split; [reflexivity|]. split; [reflexivity|].
  rewrite G1, G2, Hlen. reflexivity.
Qed.

Lemma geometry_depends_on_size_only_witness :
  exists pres1' pres2',
    List.length (same_group "CondA" "Row_01" 3) = List.length sample_records
    /\ add_slide_for (disk_of (pictures_of (same_group "CondA" "Row_01" 3)))
         ROI_Tcount_image ROI_Tcount (same_group "CondA" "Row_01" 3) [] = Ok pres1'
    /\ add_slide_for sample_disk ROI_FMcount_image ROI_FMcount sample_records [[]]
       = Ok pres2'
    /\ exists sl1 sl2,
         pres1' = [] ++ [sl1] /\ pres2' = [[]] ++ [sl2]
         /\ map geometry sl1 = map geometry sl2.
Proof.
  assert (H1 : add_slide_for (disk_of (pictures_of (same_group "CondA" "Row_01" 3)))
                 ROI_Tcount_image ROI_Tcount (same_group "CondA" "Row_01" 3) []
               = Ok [match add_slide_for
                             (disk_of (pictures_of (same_group "CondA" "Row_01" 3)))
                             ROI_Tcount_image ROI_Tcount
                             (same_group "CondA" "Row_01" 3) [] with
                     | Ok p => last p []
                     | Raise _ => []
                     end]) by (vm_compute; reflexivity).
  assert (H2 : add_slide_for sample_disk ROI_FMcount_image ROI_FMcount
                 sample_records [[]]
               = Ok [[]; match add_slide_for sample_disk ROI_FMcount_image
                                 ROI_FMcount sample_records [[]] with
                         | Ok p => last p []
                         | Raise _ => []
                         end]) by (vm_compute; reflexivity).
  eexists _, _. split; [reflexivity|]. split; [exact H1|]. split; [exact H2|].
  exact (geometry_depends_on_size_only
           (disk_of (pictures_of (same_group "CondA" "Row_01" 3))) sample_disk
           ROI_Tcount_image ROI_FMcount_image ROI_Tcount ROI_FMcount
           (same_group "CondA" "Row_01" 3) sample_records [] [[]] _ _
           eq_refl H1 H2).
Defined.

(** * The empty run *)

(** C10. When the extraction delivers no entry, [process_files] raises
    [IndexError] where it reads the first entry, before the grouping loop
    starts; the run ends there and no presentation is made. *)
Theorem no_entries_is_an_error files template T_and_FM exp_conditions_info :
  extract_records T_and_FM exp_conditions_info = Ok [] ->
  group_loop [] = Raise IndexError
  /\ process_files T_and_FM exp_conditions_info = Raise IndexError
  /\ run files template T_and_FM exp_conditions_info = Raise IndexError.
Proof.
  intros H. split; [reflexivity|].
  unfold run, process_files. rewrite H. split; reflexivity.
Qed.

Lemma no_entries_is_an_error_witness :
  extract_records Both [empty_condition] = Ok []
  /\ group_loop [] = Raise IndexError
  /\ process_files Both [empty_condition] = Raise IndexError
  /\ run sample_disk [] Both [empty_condition] = Raise IndexError.
Proof.
  split; [reflexivity|].
  apply (no_entries_is_an_error sample_disk [] Both [empty_condition]).
  reflexivity.
Defined.
(** * Further properties *)

(** ** The grouping loop *)

(** X1. For [k >= 1] entries that all have the same title and subtitle the
    function returns exactly [(k - 1) / 20] slides, each of 20 entries. *)
Theorem one_group_slide_count (t s : string) (l : list info) :
  l <> [] -> Forall (in_group t s) l ->
  exists slides, group_slides l = Ok slides
    /\ List.length slides = (List.length l - 1) / 20
    /\ Forall (fun p => List.length p = 20) slides.
Proof.
  intros Hl Hg.
  destruct (group_slides_same_group t s l Hl Hg) as (slides & H & Hsizes).
  exists slides. split; [exact H|]. split.
  - rewrite <- (length_map (@List.length info)), Hsizes. apply repeat_length.
  - apply Forall_forall. intros p Hp.
    apply (repeat_spec ((List.length l - 1) / 20) 20).
    rewrite <- Hsizes. apply in_map. exact Hp.
Qed.

Lemma one_group_slide_count_witness :
  same_group "CondA" "Row_01" 61 <> []
  /\ Forall (in_group "CondA" "Row_01") (same_group "CondA" "Row_01" 61)
  /\ exists slides, group_slides (same_group "CondA" "Row_01" 61) = Ok slides
       /\ List.length slides = (List.length (same_group "CondA" "Row_01" 61) - 1) / 20
       /\ Forall (fun p => List.length p = 20) slides.
Proof.
  assert (H1 : same_group "CondA" "Row_01" 61 <> []) by discriminate.
  assert (H2 : Forall (in_group "CondA" "Row_01") (same_group "CondA" "Row_01" 61))
    by (repeat constructor).
  split; [exact H1|]. split; [exact H2|].
  exact (one_group_slide_count "CondA" "Row_01" _ H1 H2).
Defined.

(** X2. On a non-empty list the slides returned, taken in order, are a
    strict prefix of the list: what follows them is the last group of 1 to
    20 entries of one title and subtitle, which was still in [temp_slide]. *)
Theorem slides_are_a_strict_prefix (all_info_for_slides : list info) :
  all_info_for_slides <> [] ->
  exists slides rest,
    group_slides all_info_for_slides = Ok slides
    /\ List.concat slides ++ rest = all_info_for_slides
    /\ 1 <= List.length rest <= 20
    /\ homogeneous rest.
Proof.
  intros Hl. destruct (group_loop_inv _ Hl) as (g & Hg & Hinv).
  exists (all_slides_content g), (temp_slide g).
  unfold group_slides. rewrite Hg. split; [reflexivity|].
  split; [apply Hinv|]. split; [apply Hinv|].
  eapply in_group_homogeneous. apply Hinv.
Qed.

Lemma slides_are_a_strict_prefix_witness :
  three_entries <> []
  /\ exists slides rest,
       group_slides three_entries = Ok slides
       /\ List.concat slides ++ rest = three_entries
       /\ 1 <= List.length rest <= 20
       /\ homogeneous rest.
Proof.
  split; [discriminate|].
  apply (slides_are_a_strict_prefix three_entries). discriminate.
Defined.

(** X3. No slide is closed early: every slide returned either holds 20
    entries or is followed, in the list, by an entry of another title or
    subtitle. *)
Theorem slides_are_closed_only_when_needed (all_info_for_slides : list info) :
  all_info_for_slides <> [] ->
  exists slides rest,
    group_slides all_info_for_slides = Ok slides
    /\ List.concat slides ++ rest = all_info_for_slides
    /\ each_closed slides rest.
Proof.
  destruct all_info_for_slides as [|first l]; [congruence|]. intros _.
  unfold group_slides. rewrite group_loop_cons. cbn [Py.bind].
  assert (Hinv0 : group_inv [first]
            {| all_slides_content := []; temp_slide := [first];
               current_title := ROI_title first;
               current_subtitle := ROI_subtitle first |}).
  { constructor; simpl; try reflexivity; try lia; repeat constructor. }
  do 2 eexists. split; [reflexivity|]. split.
  - apply (inv_cover _ _ (fold_group_step_inv l [first] _ Hinv0)).
  - apply (fold_group_step_closed l [first]); [exact Hinv0|exact I].
Qed.

Lemma slides_are_closed_only_when_needed_witness :
  same_group "CondA" "A" 25 ++ same_group "CondA" "B" 3 ++ same_group "CondB" "B" 2 <> []
  /\ exists slides rest,
       group_slides (same_group "CondA" "A" 25 ++ same_group "CondA" "B" 3
                       ++ same_group "CondB" "B" 2) = Ok slides
       /\ List.concat slides ++ rest
          = same_group "CondA" "A" 25 ++ same_group "CondA" "B" 3
              ++ same_group "CondB" "B" 2
       /\ each_closed slides rest.
Proof.
  split; [discriminate|].
  apply (slides_are_closed_only_when_needed
           (same_group "CondA" "A" 25 ++ same_group "CondA" "B" 3
              ++ same_group "CondB" "B" 2)).
  discriminate.
Defined.

(** ** The slides *)

(** X4. When [slide_maker] returns, it has appended exactly one slide, of
    [2 + 4 * n] shapes; the number of images [n] was at most 20 and at most
    the length of each of the four lists, and at each of the [n] slots the
    fluorescence picture and the particle picture were paths of picture
    files; in particular no particle picture was [None]. *)
Theorem slide_maker_outcome files pres t s n F P FL PL pres' :
  slide_maker files pres t s n F P FL PL = Ok pres' ->
  (n <= 20 /\ n <= List.length F /\ n <= List.length P
   /\ n <= List.length FL /\ n <= List.length PL)
  /\ (forall i, i < n ->
        exists f p, nth_error F i = Some f /\ nth_error P i = Some (Some p)
                    /\ files f = A_picture /\ files p = A_picture)
  /\ exists sl, pres' = pres ++ [sl] /\ List.length sl = 2 + 4 * n.
Proof.
  intros H. split; [eapply slide_maker_Ok_bounds; exact H|].
  split; [eapply slide_maker_Ok_pictures; exact H|].
  unfold slide_maker in H. bind_inv H as sl Hsl. injection H as <-.
  exists sl. split; [reflexivity|].
  apply slots_Ok in Hsl. destruct Hsl as (ext & -> & Hlen & _).
  rewrite length_app, Hlen. reflexivity.
Qed.

Lemma slide_maker_outcome_witness :
  exists pres',
    slide_maker (disk_of ["f_2.jpg"; "p_1.jpg"]) [[]] "CondA" "Row_01" 2
      ["f_2.jpg"; "f_2.jpg"; "g_2.jpg"] [Some "p_1.jpg"; Some "p_1.jpg"; None]
      ["1"; "2"; "3"] [Some (CInt 4); Some (CInt 0); None] = Ok pres'
    /\ (2 <= 20 /\ 2 <= 3 /\ 2 <= 3 /\ 2 <= 3 /\ 2 <= 3)
    /\ (forall i, i < 2 ->
          exists f p,
            nth_error ["f_2.jpg"; "f_2.jpg"; "g_2.jpg"] i = Some f
            /\ nth_error [Some "p_1.jpg"; Some "p_1.jpg"; None] i = Some (Some p)
            /\ disk_of ["f_2.jpg"; "p_1.jpg"] f = A_picture
            /\ disk_of ["f_2.jpg"; "p_1.jpg"] p = A_picture)
    /\ exists sl, pres' = [[]] ++ [sl] /\ List.length sl = 2 + 4 * 2.
Proof.
  eexists. split; [vm_compute; reflexivity|].
  apply (slide_maker_outcome (disk_of ["f_2.jpg"; "p_1.jpg"]) [[]] "CondA" "Row_01" 2
           ["f_2.jpg"; "f_2.jpg"; "g_2.jpg"] [Some "p_1.jpg"; Some "p_1.jpg"; None]
           ["1"; "2"; "3"] [Some (CInt 4); Some (CInt 0); None]).
  vm_compute. reflexivity.
Defined.

(** The same call for one more slot stops at the particle picture that is
    [None], and for a slot beyond the lists at the first list. *)
Example slide_maker_stops :
  slide_maker (disk_of ["f_2.jpg"; "g_2.jpg"; "p_1.jpg"]) [[]] "CondA" "Row_01" 3
    ["f_2.jpg"; "f_2.jpg"; "g_2.jpg"] [Some "p_1.jpg"; Some "p_1.jpg"; None]
    ["1"; "2"; "3"] [Some (CInt 4); Some (CInt 0); None] = Raise AttributeError
  /\ slide_maker (disk_of ["f_2.jpg"; "p_1.jpg"]) [[]] "CondA" "Row_01" 2
       ["f_2.jpg"] [Some "p_1.jpg"] ["1"] [Some (CInt 4)] = Raise IndexError
  /\ slide_maker (disk_of ["f_2.jpg"]) [[]] "CondA" "Row_01" 1
       ["f_2.jpg"] [Some "p_1.jpg"] ["1"] [Some (CInt 4)] = Raise FileNotFoundError.
Proof. repeat split. Qed.

(** X5. On the slide that [slide_maker] appends, positions and sizes are
    those of a grid of 5 columns and 4 rows filled row by row: slot [i] is
    in column [i mod 5] and row [i / 5]; columns are 6.75 cm apart, rows
    4.3 cm apart; the particle picture is 3.25 cm to the right of the
    fluorescence picture and each label 3 cm below its picture. *)
Theorem slide_follows_the_grid files pres t s n F P FL PL pres' :
  slide_maker files pres t s n F P FL PL = Ok pres' ->
  map geometry (last pres' []) = grid_geometry n.
Proof. apply slide_maker_geometry. Qed.

Lemma slide_follows_the_grid_witness :
  exists pres',
    slide_maker (disk_of ["f_2.jpg"; "p_1.jpg"]) [[]] "CondA" "Row_01" 7
      (repeat "f_2.jpg" 7) (repeat (Some "p_1.jpg") 7)
      (repeat "1" 7) (repeat (Some (CInt 4)) 7) = Ok pres'
    /\ map geometry (last pres' []) = grid_geometry 7.
Proof.
  eexists. split; [vm_compute; reflexivity|].
  apply (slide_follows_the_grid (disk_of ["f_2.jpg"; "p_1.jpg"]) [[]] "CondA" "Row_01" 7
           (repeat "f_2.jpg" 7) (repeat (Some "p_1.jpg") 7)
           (repeat "1" 7) (repeat (Some (CInt 4)) 7)).
  vm_compute. reflexivity.
Defined.

(** X7. The slide made for a group of entries shows the title and the
    subtitle of the first entry of the group, then, entry by entry in the
    order of the group: the fluorescence picture, the ROI name, the particle
    picture of the approach with its outline, and ["P="] followed by the
    count of the approach. *)
Theorem slide_shows_its_entries files image_of count_of slide_content pres pres' :
  add_slide_for files image_of count_of slide_content pres = Ok pres' ->
  exists first sl,
    hd_error slide_content = Some first /\ pres' = pres ++ [sl]
    /\ map shape_look sl
       = Text (ROI_title first) true (Pt 320) font
         :: Text (ROI_subtitle first) false (Pt 320) font
         :: flat_map (entry_looks image_of count_of) slide_content.
Proof. apply add_slide_for_looks. Qed.

Lemma slide_shows_its_entries_witness :
  exists pres' first sl,
    add_slide_for (disk_of (pictures_of three_entries))
      ROI_Tcount_image ROI_Tcount three_entries [] = Ok pres'
    /\ hd_error three_entries = Some first /\ pres' = [] ++ [sl]
    /\ map shape_look sl
       = Text (ROI_title first) true (Pt 320) font
         :: Text (ROI_subtitle first) false (Pt 320) font
         :: flat_map (entry_looks ROI_Tcount_image ROI_Tcount) three_entries.
Proof.
  assert (H : add_slide_for (disk_of (pictures_of three_entries))
                ROI_Tcount_image ROI_Tcount three_entries []
              = Ok [match add_slide_for (disk_of (pictures_of three_entries))
                            ROI_Tcount_image ROI_Tcount three_entries [] with
                    | Ok p => last p []
                    | Raise _ => []
                    end]) by (vm_compute; reflexivity).
  destruct (slide_shows_its_entries _ _ _ _ _ _ H) as (first & sl & H1 & H2 & H3).
  eexists _, first, sl. split; [exact H|]. repeat split; assumption.
Defined.

(** ** The presentations *)

(** X8. When [generate_pptxs] completes, every group of
    [all_slides_content] has between 1 and 20 entries, every entry has its
    fluorescence picture and, for each approach that is used, its particle
    picture among the picture files, and the file of each approach that is
    used, and of no other, holds the template's slides followed by one
    slide per group. *)
Theorem generate_pptxs_outcome_by_group_sizes files template all_slides T_and_FM out :
  generate_pptxs files template all_slides T_and_FM = Ok out ->
  Forall (fun c => 1 <= List.length c <= 20) all_slides
  /\ (forall c r, In c all_slides -> In r c ->
        files (ROI_Fluorescence_image r) = A_picture
        /\ (uses_T T_and_FM = true ->
            exists p, ROI_Tcount_image r = Some p /\ files p = A_picture)
        /\ (uses_FM T_and_FM = true ->
            exists p, ROI_FMcount_image r = Some p /\ files p = A_picture))
  /\ written (uses_T T_and_FM) template all_slides (Summary_results_T out)
  /\ written (uses_FM T_and_FM) template all_slides (Summary_results_FM out).
Proof.
  unfold generate_pptxs, written. intros H.
  bind_inv H as pT HT. bind_inv H as pFM HFM. injection H as <-.
  cbn [Summary_results_T Summary_results_FM].
  assert (HTs : uses_T T_and_FM = true ->
                exists p, Py.for_each (add_slide_for files ROI_Tcount_image ROI_Tcount)
                            all_slides template = Ok p /\ pT = Some p).
  { intros E. rewrite E in HT. bind_inv HT as p Hp. injection HT as <-. eauto. }
  assert (HFMs : uses_FM T_and_FM = true ->
                 exists p, Py.for_each (add_slide_for files ROI_FMcount_image ROI_FMcount)
                             all_slides template = Ok p /\ pFM = Some p).
  { intros E. rewrite E in HFM. bind_inv HFM as p Hp. injection HFM as <-. eauto. }
  split; [|split; [|split]].
  - destruct (uses_T T_and_FM) eqn:ET.
    + destruct (HTs eq_refl) as (p & Hp & _). apply deck_Ok in Hp. apply Hp.
    + assert (EFM : uses_FM T_and_FM = true) by (destruct T_and_FM; auto; discriminate).
      destruct (HFMs EFM) as (p & Hp & _). apply deck_Ok in Hp. apply Hp.
  - intros c r Hc Hr. split; [|split].
    + destruct (uses_T T_and_FM) eqn:ET.
      * destruct (HTs eq_refl) as (p & Hp & _).
        apply (deck_Ok_pictures _ _ _ _ _ _ Hp c r Hc Hr).
      * assert (EFM : uses_FM T_and_FM = true)
          by (destruct T_and_FM; auto; discriminate).
        destruct (HFMs EFM) as (p & Hp & _).
        apply (deck_Ok_pictures _ _ _ _ _ _ Hp c r Hc Hr).
    + intros E. destruct (HTs E) as (p & Hp & _).
      apply (deck_Ok_pictures _ _ _ _ _ _ Hp c r Hc Hr).
    + intros E. destruct (HFMs E) as (p & Hp & _).
      apply (deck_Ok_pictures _ _ _ _ _ _ Hp c r Hc Hr).
  - destruct (uses_T T_and_FM).
    + destruct (HTs eq_refl) as (p & Hp & ->). apply deck_Ok in Hp.
      destruct Hp as (_ & slides & -> & Hlen). eauto.
    + injection HT as <-. reflexivity.
  - destruct (uses_FM T_and_FM).
    + destruct (HFMs eq_refl) as (p & Hp & ->). apply deck_Ok in Hp.
      destruct Hp as (_ & slides & -> & Hlen). eauto.
    + injection HFM as <-. reflexivity.
Qed.

Lemma generate_pptxs_outcome_by_group_sizes_witness :
  exists out,
    generate_pptxs sample_disk [[]] [firstn 1 sample_records; skipn 1 sample_records]
      Both = Ok out
    /\ Forall (fun c => 1 <= List.length c <= 20)
         [firstn 1 sample_records; skipn 1 sample_records]
    /\ (forall c r, In c [firstn 1 sample_records; skipn 1 sample_records] -> In r c ->
          sample_disk (ROI_Fluorescence_image r) = A_picture
          /\ (uses_T Both = true ->
              exists p, ROI_Tcount_image r = Some p /\ sample_disk p = A_picture)
          /\ (uses_FM Both = true ->
              exists p, ROI_FMcount_image r = Some p /\ sample_disk p = A_picture))
    /\ written (uses_T Both) [[]] [firstn 1 sample_records; skipn 1 sample_records]
         (Summary_results_T out)
    /\ written (uses_FM Both) [[]] [firstn 1 sample_records; skipn 1 sample_records]
         (Summary_results_FM out).
Proof.
  eexists. split; [vm_compute; reflexivity|].
  apply (generate_pptxs_outcome_by_group_sizes sample_disk [[]]
           [firstn 1 sample_records; skipn 1 sample_records] Both).
  vm_compute. reflexivity.
Defined.

(** Entries of ["Thresholding only"] have no Find Maxima picture: the
    Find Maxima presentation cannot be made from them; nor can a
    presentation be made from a group of 21 entries, or when a picture is
    not on the disk. *)
Example generate_pptxs_stops :
  generate_pptxs (disk_of (pictures_of three_entries)) [[]] [three_entries]
    Find_Maxima_only = Raise AttributeError
  /\ generate_pptxs (disk_of (pictures_of (same_group "CondA" "Row_01" 21))) [[]]
       [same_group "CondA" "Row_01" 21] Thresholding_only = Raise IndexError
  /\ generate_pptxs (disk_of []) [[]] [three_entries] Thresholding_only
     = Raise FileNotFoundError.
Proof. repeat split; vm_compute; reflexivity. Qed.

(** ** The extraction *)

(** X10. The entries appear condition by condition, in the order of
    [exp_conditions_info], one entry per line of each table, each entry
    titled with the folder of its condition. *)
Theorem titles_follow_the_conditions T_and_FM exp_conditions_info recs :
  extract_records T_and_FM exp_conditions_info = Ok recs ->
  map ROI_title recs
  = flat_map (fun c => repeat (csv_root_folder c)
                         (List.length (rows (results_csv c))))
      exp_conditions_info.
Proof.
  intros H. apply (extract_titles T_and_FM exp_conditions_info [] recs H).
Qed.

Lemma titles_follow_the_conditions_witness :
  exists recs,
    extract_records Find_Maxima_only [sample_condition; empty_condition; sample_condition]
    = Ok recs
    /\ map ROI_title recs
       = flat_map (fun c => repeat (csv_root_folder c)
                              (List.length (rows (results_csv c))))
           [sample_condition; empty_condition; sample_condition].
Proof.
  eexists. split; [vm_compute; reflexivity|].
  apply (titles_follow_the_conditions Find_Maxima_only
           [sample_condition; empty_condition; sample_condition]).
  vm_compute. reflexivity.
Defined.

(** X11. Reading a list of conditions is reading a first part of it, then
    the rest, and appending the entries; an exception in either part is the
    exception of the whole, the one of the first part if both fail. *)
Theorem conditions_are_read_in_sequence T_and_FM conds1 conds2 :
  extract_records T_and_FM (conds1 ++ conds2)
  = (recs1 <- extract_records T_and_FM conds1 ;;
     recs2 <- extract_records T_and_FM conds2 ;;
     Ok (recs1 ++ recs2)).
Proof.
  unfold extract_records. rewrite for_each_app.
  destruct (Py.for_each (condition_records T_and_FM) conds1 []) as [r1|e];
    cbn [Py.bind]; [|reflexivity].
  apply extract_acc.
Qed.

(** X12. The grouping does not depend on the approach: when the tables can
    be read under two approaches, the slides that [process_files] returns
    under one and under the other have the same entries in the same places,
    up to the fields that belong to an approach. *)
Theorem grouping_is_the_same_for_every_approach
    T_and_FM1 T_and_FM2 exp_conditions_info slides1 slides2 :
  process_files T_and_FM1 exp_conditions_info = Ok slides1 ->
  process_files T_and_FM2 exp_conditions_info = Ok slides2 ->
  map (map shared_fields) slides1 = map (map shared_fields) slides2.
Proof.
  unfold process_files. intros H1 H2.
  bind_inv H1 as r1 Hr1. bind_inv H2 as r2 Hr2.
  eapply group_slides_shared; [|exact H1|exact H2].
  apply (extract_shared T_and_FM1 T_and_FM2 exp_conditions_info [] [] r1 r2);
    [reflexivity|exact Hr1|exact Hr2].
Qed.

Lemma grouping_is_the_same_for_every_approach_witness :
  exists slides1 slides2,
    process_files Thresholding_only [sample_condition] = Ok slides1
    /\ process_files Both [sample_condition] = Ok slides2
    /\ map (map shared_fields) slides1 = map (map shared_fields) slides2.
Proof.
  do 2 eexists. split; [vm_compute; reflexivity|]. split; [vm_compute; reflexivity|].
  apply (grouping_is_the_same_for_every_approach Thresholding_only Both
           [sample_condition]); vm_compute; reflexivity.
Defined.

(** X13. When the extraction completes, every table was readable under
    the approach: its two name columns are text columns, all cell names,
    once ["_1.roi"] is removed, are integer literals, and each count column
    that the approach uses is present with cells that [int] accepts.  So
    the extraction does not complete on a cell name that is no integer or
    on a table without a column that the approach needs. *)
Theorem extraction_completes_only_if_readable T_and_FM exp_conditions_info recs :
  extract_records T_and_FM exp_conditions_info = Ok recs ->
  Forall (fun c => readable T_and_FM (results_csv c)) exp_conditions_info.
Proof. apply extract_readable. Qed.

Lemma extraction_completes_only_if_readable_witness :
  exists recs,
    extract_records Thresholding_only
      [sample_condition; without_maxima sample_condition] = Ok recs
    /\ List.length recs = 6
    /\ Forall (fun c => readable Thresholding_only (results_csv c))
         [sample_condition; without_maxima sample_condition].
Proof.
  eexists. split; [vm_compute; reflexivity|]. split; [reflexivity|].
  eapply (extraction_completes_only_if_readable Thresholding_only
            [sample_condition; without_maxima sample_condition]).
  vm_compute. reflexivity.
Defined.

(** A cell name that is no integer, a text in a count column that is used,
    and a count column that is used but absent. *)
Example extraction_stops :
  extract_records Both
    [ {| csv_root_folder := "CondA";
         csv_file := "/app/Data/CondA/Quantification/Results.csv";
         results_csv :=
           {| Image_used_column := Text_column; Cell_quantified_column := Text_column;
              has_Particle_count_threshold := true; has_Particle_count_maxima := true;
              rows := [ {| Image_used := "MAX_Row_01.tif"; Cell_quantified := "cell_1.roi";
                           Particle_count_threshold := CInt 4;
                           Particle_count_maxima := CInt 7 |} ] |} |} ]
  = Raise ValueError
  /\ extract_records Both
       [ {| csv_root_folder := "CondA";
            csv_file := "/app/Data/CondA/Quantification/Results.csv";
            results_csv :=
              {| Image_used_column := Text_column; Cell_quantified_column := Text_column;
                 has_Particle_count_threshold := true; has_Particle_count_maxima := true;
                 rows := [ {| Image_used := "MAX_Row_01.tif"; Cell_quantified := "3_1.roi";
                              Particle_count_threshold := CStr "many";
                              Particle_count_maxima := CInt 7 |} ] |} |} ]
     = Raise ValueError
  /\ extract_records Both [without_maxima sample_condition] = Raise KeyError
  /\ exists recs,
       extract_records Thresholding_only [without_maxima sample_condition] = Ok recs.
Proof. repeat split; try reflexivity. eexists. vm_compute. reflexivity. Qed.

(** X14. A count column that the approach does not use is not read: with
    ["Thresholding only"] the entries, or the exception, are the same when
    the maxima column is removed from every table, and likewise for
    ["Find Maxima only"] and the threshold column. *)
Theorem unused_column_is_not_read exp_conditions_info :
  extract_records Thresholding_only (map without_maxima exp_conditions_info)
  = extract_records Thresholding_only exp_conditions_info
  /\ extract_records Find_Maxima_only (map without_threshold exp_conditions_info)
     = extract_records Find_Maxima_only exp_conditions_info.
Proof.
  unfold extract_records. split; apply for_each_map_ext; intros c acc.
  - apply condition_records_without_maxima.
  - apply condition_records_without_threshold.
Qed.

(** X15. No line of a table is lost or repeated: the (subtitle, ROI name)
    pairs of the entries of a condition are, in some order, the cleaned
    image name and the decimal text of the cell number of each line. *)
Theorem every_line_gives_one_entry T_and_FM condition_info recs :
  condition_records T_and_FM condition_info [] = Ok recs ->
  exists t1,
    Py.map_result clean_row (rows (results_csv condition_info)) = Ok t1
    /\ Permutation
         (map (fun r => (fr_Image_used r, Py.str (fr_Cell_quantified r))) t1)
         (map (fun i => (ROI_subtitle i, ROI_name i)) recs).
Proof.
  intros H. apply condition_records_spec in H. destruct H as (t & Ht & ->).
  apply sorted_table_keys in Ht. destruct Ht as (t1 & H1 & Hk).
  exists t1. split; [exact H1|]. cbn [app].
  assert (Hrecs : map (fun i => (ROI_subtitle i, ROI_name i))
                    (map (row_info T_and_FM condition_info) t)
                  = map (fun k => (fst k, Py.str (snd k))) (map row_key t)).
  { rewrite !map_map. apply map_ext. intros r.
    rewrite row_info_subtitle, row_info_name. reflexivity. }
  rewrite Hrecs, Hk.
  replace (map (fun r => (fr_Image_used r, Py.str (fr_Cell_quantified r))) t1)
    with (map (fun k => (fst k, Py.str (snd k))) (map row_key t1))
    by (rewrite map_map; reflexivity).
  do 2 apply Permutation_map. apply sort_values_perm.
Qed.

Lemma every_line_gives_one_entry_witness :
  exists recs t1,
    condition_records Thresholding_only sample_condition [] = Ok recs
    /\ Py.map_result clean_row (rows (results_csv sample_condition)) = Ok t1
    /\ Permutation
         (map (fun r => (fr_Image_used r, Py.str (fr_Cell_quantified r))) t1)
         (map (fun i => (ROI_subtitle i, ROI_name i)) recs).
Proof.
  assert (H : condition_records Thresholding_only sample_condition []
              = Ok match condition_records Thresholding_only sample_condition [] with
                   | Ok r => r
                   | Raise _ => []
                   end) by (vm_compute; reflexivity).
  destruct (every_line_gives_one_entry _ _ _ H) as (t1 & H1 & Hp).
  eexists _, t1. split; [exact H|]. split; assumption.
Defined.

(** X22. In every entry that the extraction delivers, the picture and the
    count of an approach go together: a path and an integer when the
    approach is used, [None] and [None] when it is not. *)
Theorem picture_and_count_go_together T_and_FM exp_conditions_info recs :
  extract_records T_and_FM exp_conditions_info = Ok recs ->
  Forall (fun i =>
            present_together (uses_T T_and_FM) (ROI_Tcount_image i) (ROI_Tcount i)
            /\ present_together (uses_FM T_and_FM)
                 (ROI_FMcount_image i) (ROI_FMcount i))
    recs.
Proof.
  intros H. apply extract_records_well_shaped in H.
  eapply Forall_impl; [|exact H].
  intros i (HT & HFM & _). unfold approach_fields in HT, HFM.
  unfold present_together.
  split; [destruct (uses_T T_and_FM)|destruct (uses_FM T_and_FM)];
    try assumption.
  - destruct HT as (-> & z & ->). eauto.
  - destruct HFM as (-> & z & ->). eauto.
Qed.

Lemma picture_and_count_go_together_witness :
  exists recs,
    extract_records Thresholding_only [sample_condition; empty_condition] = Ok recs
    /\ List.length recs = 3
    /\ Forall (fun i =>
                 present_together (uses_T Thresholding_only)
                   (ROI_Tcount_image i) (ROI_Tcount i)
                 /\ present_together (uses_FM Thresholding_only)
                      (ROI_FMcount_image i) (ROI_FMcount i))
         recs.
Proof.
  eexists. split; [vm_compute; reflexivity|]. split; [reflexivity|].
  apply (picture_and_count_go_together Thresholding_only
           [sample_condition; empty_condition]).
  vm_compute. reflexivity.
Defined.

(** ** Where the pictures are read *)

Section PicturePaths.

Local Open Scope string_scope.

(** X17. For a csv file [dir/Quantification/Results.csv] and a line whose
    cleaned image name [sub] is a single non-empty path component, where
    neither [dir] nor [sub] contains ["Fluorescence"] or ["_2.jpg"] and
    [dir] does not contain ["Quantification"]: the fluorescence picture of
    cell [n] is [dir/Cropped cells/Fluorescence/sub/n_2.jpg], and the
    particle picture of an approach that is used is the file [n_1.jpg] at
    the same place under [T_Particles], respectively [FM_Particles]. *)
Theorem pictures_are_under_the_condition_folder T_and_FM c r dir :
  csv_file c = dir ++ "/Quantification/Results.csv" ->
  contains "Quantification" dir = false ->
  contains "Fluorescence" dir = false -> contains "_2.jpg" dir = false ->
  fr_Image_used r <> "" -> occurs_in "/" (fr_Image_used r) = false ->
  contains "Fluorescence" (fr_Image_used r) = false ->
  contains "_2.jpg" (fr_Image_used r) = false ->
  ROI_Fluorescence_image (row_info T_and_FM c r)
  = dir ++ "/Cropped cells/Fluorescence/" ++ fr_Image_used r ++ "/"
      ++ Py.str (fr_Cell_quantified r) ++ "_2.jpg"
  /\ ROI_Tcount_image (row_info T_and_FM c r)
     = (if uses_T T_and_FM
        then Some (dir ++ "/Cropped cells/T_Particles/" ++ fr_Image_used r ++ "/"
                     ++ Py.str (fr_Cell_quantified r) ++ "_1.jpg")
        else None)
  /\ ROI_FMcount_image (row_info T_and_FM c r)
     = (if uses_FM T_and_FM
        then Some (dir ++ "/Cropped cells/FM_Particles/" ++ fr_Image_used r ++ "/"
                     ++ Py.str (fr_Cell_quantified r) ++ "_1.jpg")
        else None).
Proof.
  intros Hcsv HdQ HdF Hd2 Hsub Hsub' HsF Hs2.
  pose proof (fluorescence_path dir (fr_Image_used r) (fr_Cell_quantified r)
                HdQ Hsub Hsub') as HF.
  pose proof (particles_path "T_Particles" dir (fr_Image_used r) (fr_Cell_quantified r)
                HdF Hd2 HsF Hs2 eq_refl) as HT.
  pose proof (particles_path "FM_Particles" dir (fr_Image_used r) (fr_Cell_quantified r)
                HdF Hd2 HsF Hs2 eq_refl) as HFM.
  destruct T_and_FM;
    cbn [row_info ROI_Fluorescence_image ROI_Tcount_image ROI_FMcount_image
         uses_T uses_FM];
    rewrite Hcsv, HF, ?HT, ?HFM; repeat split; reflexivity.
Qed.

Lemma pictures_are_under_the_condition_folder_witness :
  ROI_Fluorescence_image
    (row_info Both sample_condition
       {| fr_Image_used := "Row_01"; fr_Cell_quantified := 9;
          fr_Particle_count_threshold := CInt 3;
          fr_Particle_count_maxima := CInt 12 |})
  = "/app/Data/CondA/Cropped cells/Fluorescence/Row_01/9_2.jpg"
  /\ ROI_Tcount_image
       (row_info Both sample_condition
          {| fr_Image_used := "Row_01"; fr_Cell_quantified := 9;
             fr_Particle_count_threshold := CInt 3;
             fr_Particle_count_maxima := CInt 12 |})
     = Some "/app/Data/CondA/Cropped cells/T_Particles/Row_01/9_1.jpg"
  /\ ROI_FMcount_image
       (row_info Both sample_condition
          {| fr_Image_used := "Row_01"; fr_Cell_quantified := 9;
             fr_Particle_count_threshold := CInt 3;
             fr_Particle_count_maxima := CInt 12 |})
     = Some "/app/Data/CondA/Cropped cells/FM_Particles/Row_01/9_1.jpg".
Proof.
  apply (pictures_are_under_the_condition_folder Both sample_condition
           {| fr_Image_used := "Row_01"; fr_Cell_quantified := 9;
              fr_Particle_count_threshold := CInt 3;
              fr_Particle_count_maxima := CInt 12 |}
           "/app/Data/CondA");
    try reflexivity; discriminate.
Defined.

End PicturePaths.

(** ** The folder of a condition *)

Section ConditionFolder.

Local Open Scope string_scope.

(** X18. For a csv file whose normalised path is
    [base/Data/name/Quantification...], where that ["/Data/"] is the first
    and only one of the path and that ["/Quantification"] is the first one
    after it, the title of the condition is [name]. *)
Theorem root_folder_is_between_Data_and_Quantification csv base name tail :
  Path.normpath csv = base ++ "/Data/" ++ name ++ "/Quantification" ++ tail ->
  starts_in "/Data/" base ("/Data/" ++ name ++ "/Quantification" ++ tail) = false ->
  contains "/Data/" (name ++ "/Quantification" ++ tail) = false ->
  starts_in "/Quantification" name ("/Quantification" ++ tail) = false ->
  root_folder_of csv = Ok name.
Proof.
  intros Hnorm Hbase Hrest Hname.
  unfold root_folder_of, Path.split. rewrite Hnorm.
  rewrite (split_from_first "/" "Data/" base _ Hbase).
  rewrite (split_from_absent "/" "Data/" _ Hrest).
  cbn [fst snd Py.bind Py.index nth_error].
  rewrite (split_from_first "/" "Quantification" name tail Hname).
  reflexivity.
Qed.

Lemma root_folder_is_between_Data_and_Quantification_witness :
  root_folder_of "/srv/app/./Data/Exp1/CondA/Quantification/Results.csv"
  = Ok "Exp1/CondA".
Proof.
  apply (root_folder_is_between_Data_and_Quantification
           "/srv/app/./Data/Exp1/CondA/Quantification/Results.csv"
           "/srv/app" "Exp1/CondA" "/Results.csv");
    reflexivity.
Defined.

(** X19. The title of a condition can be computed exactly when the
    normalised path of its csv file contains ["/Data/"]; otherwise the
    exception is [IndexError], and no other exception is raised. *)
Theorem root_folder_needs_a_Data_folder csv :
  (contains "/Data/" (Path.normpath csv) = true ->
   exists folder, root_folder_of csv = Ok folder)
  /\ (contains "/Data/" (Path.normpath csv) = false ->
      root_folder_of csv = Raise IndexError)
  /\ (forall e, root_folder_of csv = Raise e -> e = IndexError).
Proof.
  split; [apply root_folder_of_Ok|]. split.
  - intros H. destruct (root_folder_of csv) as [folder|e] eqn:E.
    + destruct (contains "/Data/" (Path.normpath csv)) eqn:Ec; [discriminate|].
      unfold root_folder_of, Path.split in E.
      rewrite (split_from_absent "/" "Data/" _ Ec) in E. discriminate.
    + f_equal. apply (root_folder_of_Raise csv e E).
  - intros e H. apply (root_folder_of_Raise csv e H).
Qed.

Lemma root_folder_needs_a_Data_folder_witness :
  (exists folder, root_folder_of "/srv/app/Data/CondA/Quantification/Results.csv"
                  = Ok folder)
  /\ root_folder_of "/srv/app/data/CondA/Quantification/Results.csv" = Raise IndexError.
Proof.
  split.
  - apply (proj1 (root_folder_needs_a_Data_folder
                    "/srv/app/Data/CondA/Quantification/Results.csv")).
    reflexivity.
  - apply (proj1 (proj2 (root_folder_needs_a_Data_folder
                           "/srv/app/data/CondA/Quantification/Results.csv"))).
    reflexivity.
Defined.

(** X20. The title of a condition never contains ["/Quantification"]. *)
Theorem root_folder_has_no_Quantification csv folder :
  root_folder_of csv = Ok folder -> contains "/Quantification" folder = false.
Proof.
  unfold root_folder_of, Path.split. intros H.
  destruct (Path.split_from "/Data/" 0 (Path.normpath csv)) as [p ps].
  cbn [Py.bind] in H. bind_inv H as after Hafter.
  pose proof (split_from_first_piece "/" "Quantification" after) as [_ Hc].
  destruct (Path.split_from "/Quantification" 0 after) as [q qs].
  cbn [Py.bind Py.index nth_error fst] in H, Hc. injection H as <-. exact Hc.
Qed.

Lemma root_folder_has_no_Quantification_witness :
  root_folder_of "/srv/Data/Quantification/Quantification/Results.csv"
  = Ok "Quantification"
  /\ contains "/Quantification" "Quantification" = false.
Proof.
  split; [reflexivity|].
  apply (root_folder_has_no_Quantification
           "/srv/Data/Quantification/Quantification/Results.csv" "Quantification").
  reflexivity.
Defined.

(** X21. [exp_conditions_info] has one condition per csv file, in the
    order of the files, each with the title computed from the path of its
    file. *)
Theorem one_condition_per_csv_file read_csv all_csv_files conds :
  conditions_of read_csv all_csv_files = Ok conds ->
  Forall2 (fun f c => root_folder_of f = Ok (csv_root_folder c)
                      /\ csv_file c = f /\ results_csv c = read_csv f)
    all_csv_files conds.
Proof.
  unfold conditions_of. intros H.
  apply conditions_of_spec in H. destruct H as (new & -> & Hall). exact Hall.
Qed.

Lemma one_condition_per_csv_file_witness :
  exists conds,
    conditions_of (fun _ => results_csv sample_condition)
      ["/srv/Data/CondA/Quantification/Results.csv";
       "/srv/Data/CondB/Quantification/Results.csv"] = Ok conds
    /\ Forall2 (fun f c => root_folder_of f = Ok (csv_root_folder c)
                           /\ csv_file c = f
                           /\ results_csv c = results_csv sample_condition)
         ["/srv/Data/CondA/Quantification/Results.csv";
          "/srv/Data/CondB/Quantification/Results.csv"] conds.
Proof.
  eexists. split; [vm_compute; reflexivity|].
  apply (one_condition_per_csv_file (fun _ => results_csv sample_condition)
           ["/srv/Data/CondA/Quantification/Results.csv";
            "/srv/Data/CondB/Quantification/Results.csv"]).
  vm_compute. reflexivity.
Defined.

End ConditionFolder.
